(** * Release packaging script ([scripts/release.mjs])

    A shallow embedding of the release script: the file system it reads and
    writes, the archive streams it listens to, the remote release API it
    calls, and the control flow of [main] and [createGitHubRelease], followed
    by the properties of the packaging pipeline. *)

From Stdlib Require Import ZArith String Ascii List Lia.
From stdpp Require Import base option list gmap strings.

Local Open Scope Z_scope.

(** ** Errors, console output and the runtime environment *)

(** A JavaScript error object, as far as the script looks at it:
    [error.message] and [error.status] (set by the HTTP client). *)
Record error := Error_ { message : string; status : option Z }.

Definition fs_error (code : string) : error := Error_ code None.

(** The lines the script prints, one constructor per [console.log] /
    [console.error] call of the source. *)
Inductive msg :=
| MsgZipDone (source output : string)   (* line 40 *)
| MsgTokenMissing                       (* line 81 *)
| MsgRepo (owner repo : string)         (* line 87 *)
| MsgReleaseFound (html_url : string)   (* line 102 *)
| MsgReleaseCreated (html_url : string) (* line 116 *)
| MsgUploadStart                        (* line 123 *)
| MsgUploading (name : string)          (* lines 127, 145 *)
| MsgUploaded (name : string)           (* lines 138, 154 *)
| MsgReleaseDone (html_url : string)    (* line 157 *)
| ErrReleaseFailed (message : string)   (* line 160, console.error *)
| ErrTokenHint                          (* line 162, console.error *)
| MsgStart (version : string)           (* line 171 *)
| MsgNoFolders                          (* line 185 *)
| MsgFound (n : nat)                    (* line 189 *)
| MsgFolder (name : string)             (* line 190 *)
| MsgZipping (name : string)            (* line 200 *)
| MsgFileInfo (size : Z) (sha512 : string) (* lines 213-215 *)
| MsgDone (outputDir : list string)     (* lines 223-225 *)
| MsgFileLine (url : string) (size : Z) (* lines 227-229 *)
| MsgInfoLine                           (* line 231 *)
| ErrFailed (message : string).         (* line 237, console.error *)

(** ** The file system *)

(** A path is its list of components, relative to the working directory;
    [path.join dir name] with a single entry name appends one component. *)
Abbreviation path := (list string).

Definition path_join (dir : path) (name : string) : path := dir ++ [name].

(** A plain entry name: not empty, not [.] or [..], and without a slash or
    a NUL character.  These are the names for which [path.join dir name] is
    [dir/name] (POSIX), one component below [dir], as [path_join] has it; on
    any other string [path.join] normalises the result (it drops empty and
    [.] segments, splits at slashes and lets [..] take a component away),
    and the result can lie anywhere.  The names [readdirSync] returns are
    plain, and so are the file names the script builds from them. *)
Fixpoint plain_chars (s : string) : bool :=
  match s with
  | EmptyString => true
  | String c s' =>
      negb (Ascii.eqb c "/") && negb (Ascii.eqb c "000") && plain_chars s'
  end.

Definition plain_name (s : string) : bool :=
  negb (String.eqb s "") && negb (String.eqb s ".")
  && negb (String.eqb s "..") && plain_chars s.

Definition basename (p : path) : string := List.last p ""%string.

Inductive node :=
| File (data : string)   (* a regular file and its bytes *)
| Dir.

Abbreviation fsmap := (gmap (list string) node).

Definition is_dir (n : node) : bool :=
  match n with Dir => true | File _ => false end.

(** The working directory itself always exists and is a directory. *)
Definition fs_lookup (m : fsmap) (p : path) : option node :=
  match p with
  | [] => Some Dir
  | _ => m !! p
  end.

Definition existsSync (m : fsmap) (p : path) : bool :=
  match fs_lookup m p with Some _ => true | None => false end.

(** [fs.mkdirSync(p, { recursive: true })]: every missing directory along
    the path is created, outermost first; a regular file on the way is an
    error. *)
Fixpoint mkdir_from (m : fsmap) (pre rest : path) : error + fsmap :=
  match rest with
  | [] => inr m
  | c :: rest' =>
      let q := pre ++ [c] in
      match m !! q with
      | Some (File _) =>
          inl (fs_error (match rest' with [] => "EEXIST" | _ => "ENOTDIR" end))
      | Some Dir => mkdir_from m q rest'
      | None => mkdir_from (<[q := Dir]> m) q rest'
      end
  end.

Definition mkdirSync (m : fsmap) (p : path) : error + fsmap := mkdir_from m [] p.

(** A directory entry as [readdirSync(..., { withFileTypes: true })] returns
    it: the name and whether the entry is a directory. *)
Record dirent := Dirent { name : string; isDirectory : bool }.

(** [child_name d p] is [Some n] exactly when [p] is the entry [n] of [d]. *)
Fixpoint child_name (d p : path) : option string :=
  match d, p with
  | [], [n] => Some n
  | x :: d', y :: p' => if decide (x = y) then child_name d' p' else None
  | _, _ => None
  end.

Definition entry_of (d : path) (kv : path * node) : option dirent :=
  (λ n, Dirent n (is_dir kv.2)) <$> child_name d kv.1.

Definition children (m : fsmap) (d : path) : list dirent :=
  omap (entry_of d) (map_to_list m).

Definition readdirSync (m : fsmap) (d : path) : error + list dirent :=
  match fs_lookup m d with
  | Some Dir => inr (children m d)
  | Some (File _) => inl (fs_error "ENOTDIR")
  | None => inl (fs_error "ENOENT")
  end.

Definition readFileSync (m : fsmap) (p : path) : error + string :=
  match fs_lookup m p with
  | Some (File data) => inr data
  | Some Dir => inl (fs_error "EISDIR")
  | None => inl (fs_error "ENOENT")
  end.

(** Writing a file needs its parent directory, and the target must not be a
    directory. *)
Definition fs_write (m : fsmap) (p : path) (data : string) : error + fsmap :=
  match p with
  | [] => inl (fs_error "EISDIR")
  | _ =>
      match fs_lookup m (removelast p) with
      | Some Dir =>
          match m !! p with
          | Some Dir => inl (fs_error "EISDIR")
          | _ => inr (<[p := File data]> m)
          end
      | Some (File _) => inl (fs_error "ENOTDIR")
      | None => inl (fs_error "ENOENT")
      end
  end.

(** ** Archive streams *)

(** The events of one archiving operation, in the order they are emitted:
    those of the write stream ([output]) and those of the archiver
    ([archive]). *)
Inductive stream_event :=
| OutputFinish
| OutputClose
| OutputError (e : error)
| ArchiveWarning (e : error)
| ArchiveError (e : error).

(** What one run of the archiver does: the events it emits and, when the
    output file could be opened, the bytes it holds once the streams are
    done. *)
Record archive_run := ArchiveRun {
  events : list stream_event;
  written : option string
}.

(** ** The remote release API *)

Record release := Release { id : Z; html_url : string }.

Inductive api_call :=
| GetReleaseByTag (owner repo tag : string)
| CreateRelease (owner repo tag_name name body : string) (draft prerelease : bool)
| UploadReleaseAsset (owner repo : string) (release_id : Z) (name data : string).

(** ** Manifest *)

Record artifact := Artifact { url : string; sha512 : string; size : Z }.

Record info := Info {
  version : string;
  files : list artifact;
  releaseDate : string
}.

(** The value of [packageJson.version]: a string, or some other value (with
    the text the template literal of line 171 prints for it). *)
Inductive version_field :=
| VString (s : string)
| VOther (shown : string).

(** Everything the script takes from outside its own code: the libraries it
    calls, the process environment, the clock and the remote service. *)
Record env := Env {
  (* JSON.parse of package.json, then [.version] *)
  parse_version : string → error + version_field;
  (* crypto.createHash('sha512').update(buf).digest('base64') *)
  sha512_base64 : string → string;
  (* stats.size of a directory *)
  dir_size : Z;
  (* archiver('zip', { zlib: { level: 9 } }) run on (source, output) *)
  archiver : fsmap → path → path → archive_run;
  (* new Date().toISOString() *)
  now : string;
  (* JSON.stringify(info, null, 2) *)
  JSON_stringify : info → string;
  (* process.env.GH_TOKEN *)
  GH_TOKEN : option string;
  (* execSync('git remote get-url origin', ...).trim() *)
  git_remote_url : error + string;
  (* remoteUrl.match(/github\.com[:/]([^/]+)\/([^/]+?)(?:\.git)?$/) *)
  match_github : string → option (string * string);
  (* the HTTP client: the response to a call, given the calls before it *)
  octokit : list api_call → api_call → error + release
}.

(** ** The state of a run and the monad of the script *)

Record world := World {
  w_fs : fsmap;
  w_log : list msg;                                  (* console, oldest first *)
  w_net : list api_call;                             (* remote calls issued *)
  w_zips : list (path * path * list stream_event)    (* archive operations *)
}.

Definition init (m : fsmap) : world := World m [] [] [].

(** How the process can stop other than by finishing [main]. *)
Inductive halt :=
| ExitCode (c : Z)              (* process.exit(c) *)
| UncaughtEvent (e : error)     (* an 'error' event nobody listens to *)
| Stalled.                      (* awaiting a promise that never settles *)

Inductive outcome (A : Type) :=
| Ret (a : A)
| Throw (e : error)
| Halt (h : halt).
Arguments Ret {A} a.
Arguments Throw {A} e.
Arguments Halt {A} h.

Definition M (A : Type) : Type := world → world * outcome A.

Definition ret {A} (a : A) : M A := λ w, (w, Ret a).
Definition throw {A} (e : error) : M A := λ w, (w, Throw e).
Definition process_exit {A} (c : Z) : M A := λ w, (w, Halt (ExitCode c)).

Definition bind {A B} (m : M A) (f : A → M B) : M B :=
  λ w, match m w with
       | (w1, Ret a) => f a w1
       | (w1, Throw e) => (w1, Throw e)
       | (w1, Halt h) => (w1, Halt h)
       end.

(** [try { body } catch (error) { handler }]: only thrown errors are caught;
    a process exit is not. *)
Definition try_catch {A} (body : M A) (handler : error → M A) : M A :=
  λ w, match body w with
       | (w1, Throw e) => handler e w1
       | r => r
       end.

Notation "'let*' x := m 'in' f" := (bind m (λ x, f))
  (at level 10, x pattern, m at level 100, f at level 200, only parsing).
Notation "m >> f" := (bind m (λ _, f))
  (at level 100, f at level 200, right associativity, only parsing).

Definition lift {A} (r : error + A) : M A :=
  λ w, (w, match r with inl e => Throw e | inr a => Ret a end).

Definition log (l : msg) : M unit :=
  λ w, (World (w_fs w) (w_log w ++ [l]) (w_net w) (w_zips w), Ret tt).

Definition logs (ls : list msg) : M unit :=
  λ w, (World (w_fs w) (w_log w ++ ls) (w_net w) (w_zips w), Ret tt).

Definition read_fs {A} (f : fsmap → error + A) : M A := λ w, lift (f (w_fs w)) w.

Definition update_fs (f : fsmap → error + fsmap) : M unit :=
  λ w, match f (w_fs w) with
       | inl e => (w, Throw e)
       | inr m => (World m (w_log w) (w_net w) (w_zips w), Ret tt)
       end.

(** The exit status of the process: [main] returning lets the process end
    with status 0, as does an empty event loop; an uncaught error ends it
    with status 1. *)
Definition exit_status {A} (o : outcome A) : Z :=
  match o with
  | Ret _ => 0
  | Throw _ => 1
  | Halt (ExitCode c) => c
  | Halt (UncaughtEvent _) => 1
  | Halt Stalled => 0
  end.

Definition filesSrc : path := ["src"; "files"]%string.
Definition outputDist : path := ["dist"]%string.

Section Script.

Variable E : env.

(** *** [getVersion] (lines 12-15) *)
Definition getVersion : M version_field :=
  let* packageJson := read_fs (λ m, readFileSync m ["package.json"%string]) in
  lift (parse_version E packageJson).

(** *** [calculateSHA512] (lines 18-23) *)
Definition calculateSHA512 (filePath : path) : M string :=
  let* fileBuffer := read_fs (λ m, readFileSync m filePath) in
  ret (sha512_base64 E fileBuffer).

(** *** [getFileSize] (lines 26-29) *)
Definition statSync_size (m : fsmap) (p : path) : error + Z :=
  match fs_lookup m p with
  | Some (File data) => inr (Z.of_nat (String.length data))
  | Some Dir => inr (dir_size E)
  | None => inl (fs_error "ENOENT")
  end.

Definition getFileSize (filePath : path) : M Z :=
  read_fs (λ m, statSync_size m filePath).

(** *** [zipFolder] (lines 32-52) *)

(** The promise of [zipFolder]: the handlers registered are
    [output.on('close')], which resolves, and [archive.on('error')], which
    rejects.  No handler is registered for an 'error' of [output]: an
    'error' event without a listener is thrown by the emitter and ends the
    process.  The other events have no listener and pass.  The first event
    that settles the promise decides; [main] awaits it before going on. *)
Inductive settled :=
| Resolved
| Rejected (e : error)
| Unhandled (e : error)
| Pending.

Fixpoint settle (evs : list stream_event) : settled :=
  match evs with
  | [] => Pending
  | OutputClose :: _ => Resolved
  | ArchiveError e :: _ => Rejected e
  | OutputError e :: _ => Unhandled e
  | _ :: evs' => settle evs'
  end.

(** [archive.pipe(output); archive.directory(sourcePath, false);
    archive.finalize()]: the archiver runs on the disk as it is, the bytes
    it got into the output file are on disk when the promise settles, and
    the operation is recorded with its events. *)
Definition zipFolder (sourcePath outputPath : path) : M unit :=
  λ w,
    let run := archiver E (w_fs w) sourcePath outputPath in
    let m' := match written run with
              | Some data =>
                  match fs_write (w_fs w) outputPath data with
                  | inr m' => m'
                  | inl _ => w_fs w
                  end
              | None => w_fs w
              end in
    let zips' := w_zips w ++ [(sourcePath, outputPath, events run)] in
    match settle (events run) with
    | Resolved =>
        (World m' (w_log w ++ [MsgZipDone (basename sourcePath) (basename outputPath)])
               (w_net w) zips', Ret tt)
    | Rejected e => (World m' (w_log w) (w_net w) zips', Throw e)
    | Unhandled e => (World m' (w_log w) (w_net w) zips', Halt (UncaughtEvent e))
    | Pending => (World m' (w_log w) (w_net w) zips', Halt Stalled)
    end.

(** *** [generateInfoJson] (lines 55-62) *)
Definition generateInfoJson (version : string) (files : list artifact) : string :=
  JSON_stringify E (Info version files (now E)).

(** *** [getGitHubInfo] (lines 65-75) *)

(** [s.replace('.git', '')]: the first occurrence is removed. *)
Fixpoint remove_dot_git (s : string) : string :=
  match s with
  | EmptyString => EmptyString
  | String c s' =>
      if String.prefix ".git" s then String.substring 4 (String.length s - 4) s
      else String c (remove_dot_git s')
  end.

Definition getGitHubInfo : M (string * string) :=
  let* remoteUrl := lift (git_remote_url E) in
  match match_github E remoteUrl with
  | None => throw (Error_ "无法解析GitHub仓库URL" None)
  | Some (owner, repo) => ret (owner, remove_dot_git repo)
  end.

(** *** [createGitHubRelease] (lines 78-165) *)

(** One request through the HTTP client; a failed request throws. *)
Definition call (c : api_call) : M release :=
  λ w, (World (w_fs w) (w_log w) (w_net w ++ [c]) (w_zips w),
        match octokit E (w_net w) c with
        | inl e => Throw e
        | inr r => Ret r
        end).

(** [!githubToken]: the variable is unset or empty. *)
Definition token_missing : bool :=
  match GH_TOKEN E with
  | None => true
  | Some EmptyString => true
  | Some _ => false
  end.

(** Lines 93-120: look the release up by tag, create it as a draft on 404. *)
Definition find_or_create_release (owner repo version : string) : M release :=
  try_catch
    (let* release := call (GetReleaseByTag owner repo ("v" +:+ version)) in
     log (MsgReleaseFound (html_url release)) >>
     ret release)
    (λ error,
       if decide (status error = Some 404) then
         let* release :=
           call (CreateRelease owner repo ("v" +:+ version) version
                   ("Release version " +:+ version) true false) in
         log (MsgReleaseCreated (html_url release)) >>
         ret release
       else throw error).

Definition file_exists (p : path) : M bool :=
  λ w, (w, Ret (existsSync (w_fs w) p)).

(** Lines 124-140: the upload loop over [files]. *)
Fixpoint upload_files (owner repo : string) (release_id : Z)
    (outputDir : path) (files : list artifact) : M unit :=
  match files with
  | [] => ret tt
  | file :: rest =>
      let filePath := path_join outputDir (url file) in
      let* present := file_exists filePath in
      (if present : bool then
         log (MsgUploading (url file)) >>
         let* fileBuffer := read_fs (λ m, readFileSync m filePath) in
         call (UploadReleaseAsset owner repo release_id (url file) fileBuffer) >>
         log (MsgUploaded (url file))
       else ret tt) >>
      upload_files owner repo release_id outputDir rest
  end.

(** Lines 143-155: the manifest is uploaded last. *)
Definition upload_info (owner repo : string) (release_id : Z)
    (outputDir : path) : M unit :=
  let infoPath := path_join outputDir "info.json" in
  let* present := file_exists infoPath in
  if present : bool then
    log (MsgUploading "info.json") >>
    let* infoBuffer := read_fs (λ m, readFileSync m infoPath) in
    call (UploadReleaseAsset owner repo release_id "info.json" infoBuffer) >>
    log (MsgUploaded "info.json")
  else ret tt.

(** Lines 86-157: the body of the [try] block. *)
Definition publish (version : string) (files : list artifact)
    (outputDir : path) : M unit :=
  let* (owner, repo) := getGitHubInfo in
  log (MsgRepo owner repo) >>
  let* release := find_or_create_release owner repo version in
  log MsgUploadStart >>
  upload_files owner repo (id release) outputDir files >>
  upload_info owner repo (id release) outputDir >>
  log (MsgReleaseDone (html_url release)).

(** Lines 159-164: the [catch] block. *)
Definition publish_failed (error : error) : M unit :=
  log (ErrReleaseFailed (message error)) >>
  if decide (status error = Some 401) then log ErrTokenHint else ret tt.

Definition createGitHubRelease (version : string) (files : list artifact)
    (outputDir : path) : M unit :=
  if token_missing then log MsgTokenMissing
  else try_catch (publish version files outputDir) publish_failed.

(** *** [main] (lines 168-240) *)

Definition shown (v : version_field) : string :=
  match v with VString s => s | VOther s => s end.

(** Lines 170-177: the version and the output directory.  [path.join]
    throws on an argument that is not a string; a version that is a plain
    entry name ([plain_name]) is one path component below [dist], and this
    is the case [path_join] describes: the statements that depend on where
    the output directory lies are made for such a version
    ([plain_version]). *)
Definition prepare_output : M (string * path) :=
  let* v := getVersion in
  log (MsgStart (shown v)) >>
  match v with
  | VOther _ => throw (Error_ "ERR_INVALID_ARG_TYPE" None)
  | VString version =>
      let outputDir := path_join outputDist version in
      let* present := file_exists outputDir in
      (if present : bool then ret tt
       else update_fs (λ m, mkdirSync m outputDir)) >>
      ret (version, outputDir)
  end.

(** Lines 180-190: the folders of the source root. *)
Definition list_folders : M (list dirent) :=
  let filesDir := filesSrc in
  let* items := read_fs (λ m, readdirSync m filesDir) in
  let folders := List.filter isDirectory items in
  (if Nat.eqb (length folders) 0 then
     log MsgNoFolders >> process_exit 1
   else ret tt) >>
  logs (MsgFound (length folders) :: map (λ folder, MsgFolder (name folder)) folders) >>
  ret folders.

(** Lines 192-216: one archive per folder, appended to [files]. *)
Fixpoint zip_folders (outputDir : path) (folders : list dirent)
    (files : list artifact) : M (list artifact) :=
  match folders with
  | [] => ret files
  | folder :: rest =>
      let sourcePath := path_join filesSrc (name folder) in
      let zipFileName := name folder +:+ ".zip" in
      let outputPath := path_join outputDir zipFileName in
      log (MsgZipping (name folder)) >>
      zipFolder sourcePath outputPath >>
      let* sha512 := calculateSHA512 outputPath in
      let* size := getFileSize outputPath in
      let files' := files ++ [Artifact zipFileName sha512 size] in
      log (MsgFileInfo size sha512) >>
      zip_folders outputDir rest files'
  end.

(** Lines 218-231: the manifest is written and the summary printed. *)
Definition write_info (version : string) (files : list artifact)
    (outputDir : path) : M unit :=
  let infoJson := generateInfoJson version files in
  let infoPath := path_join outputDir "info.json" in
  update_fs (λ m, fs_write m infoPath infoJson) >>
  logs (MsgDone outputDir
          :: map (λ file, MsgFileLine (url file) (size file)) files
          ++ [MsgInfoLine]).

(** Lines 170-231: everything [main] does before publishing. *)
Definition package : M (string * list artifact * path) :=
  let* (version, outputDir) := prepare_output in
  let* folders := list_folders in
  let* files := zip_folders outputDir folders [] in
  write_info version files outputDir >>
  ret (version, files, outputDir).

Definition main_body : M unit :=
  let* (version, files, outputDir) := package in
  createGitHubRelease version files outputDir.

Definition main : M unit :=
  try_catch main_body
    (λ error, log (ErrFailed (message error)) >> process_exit 1).

End Script.

(** ** Vocabulary of the statements *)

(** The version that [getVersion] reads on the disk [m], when it is a
    string, is a plain entry name, so that the output directory is
    [dist/<version>]. *)
Definition plain_version (E : env) (m : fsmap) : bool :=
  match (getVersion E (init m)).2 with
  | Ret (VString version) => plain_name version
  | _ => true
  end.

(** How a computation stopped short of returning, whatever its type. *)
Inductive stop :=
| Thrown (e : error)
| Halted (h : halt).

Definition stopped {A} (o : outcome A) : option stop :=
  match o with
  | Ret _ => None
  | Throw e => Some (Thrown e)
  | Halt h => Some (Halted h)
  end.

(** What the way an archive operation's promise settled means for the
    computation that awaits it. *)
Definition verdict (st : option stop) (s : settled) : Prop :=
  match s with
  | Resolved => True
  | Rejected e => st = Some (Thrown e)
  | Unhandled e => st = Some (Halted (UncaughtEvent e))
  | Pending => st = Some (Halted Stalled)
  end.

(** Events without a listener that are not errors: they pass. *)
Definition passive (ev : stream_event) : Prop :=
  ev = OutputFinish ∨ ∃ e, ev = ArchiveWarning e.

(** The error a stream-level 'error' event carries. *)
Definition stream_error (ev : stream_event) : option error :=
  match ev with
  | OutputError e | ArchiveError e => Some e
  | _ => None
  end.

(** [recorded_ok E m outputDir a]: the manifest entry [a] describes the file
    that [m] holds under its name in the output directory. *)
Definition recorded_ok (E : env) (m : fsmap) (outputDir : path) (a : artifact) : Prop :=
  ∃ data, m !! path_join outputDir (url a) = Some (File data) ∧
          sha512 a = sha512_base64 E data ∧
          size a = Z.of_nat (String.length data).

Definition zip_name (folder : dirent) : string := name folder +:+ ".zip".

Definition folders_of (m : fsmap) : list dirent :=
  List.filter isDirectory (children m filesSrc).

(** Every entry of the disk lies in a directory. *)
Definition fs_wf (m : fsmap) : Prop :=
  ∀ p n, m !! p = Some n → fs_lookup m (removelast p) = Some Dir.

(** [confined P c]: the computation [c] leaves the disk and the archive
    trace alone, never ends the process, and issues only remote calls that
    satisfy [P]. *)
Definition confined {A} (P : api_call → Prop) (c : M A) : Prop :=
  ∀ w w' o, c w = (w', o) →
    w_fs w' = w_fs w ∧ w_zips w' = w_zips w ∧ (∀ h, o ≠ Halt h) ∧
    ∃ calls, w_net w' = w_net w ++ calls ∧ Forall P calls.

(** [offline c]: the computation [c] issues no remote call. *)
Definition offline {A} (c : M A) : Prop :=
  ∀ w w' o, c w = (w', o) → w_net w' = w_net w.

Definition is_upload (owner repo : string) (release_id : Z) (c : api_call) : Prop :=
  ∃ n data, c = UploadReleaseAsset owner repo release_id n data.

(** The upload an artifact gives rise to, if its file is on disk, and the
    lines printed for it. *)
Definition upload_of (owner repo : string) (release_id : Z) (m : fsmap)
    (outputDir : path) (a : artifact) : option api_call :=
  match m !! path_join outputDir (url a) with
  | Some (File data) => Some (UploadReleaseAsset owner repo release_id (url a) data)
  | _ => None
  end.

Definition upload_lines (m : fsmap) (outputDir : path) (a : artifact) : list msg :=
  if existsSync m (path_join outputDir (url a))
  then [MsgUploading (url a); MsgUploaded (url a)]
  else [].

(** ** Vocabulary of the further properties *)

(** [halts_only H c]: when [c] ends the process, it does so in a way that
    satisfies [H]. *)
Definition halts_only {A} (H : halt → Prop) (c : M A) : Prop :=
  ∀ w w' h, c w = (w', Halt h) → H h.

(** [writes_only S c]: whatever [c] changes on disk is a path in [S] that
    holds a regular file afterwards. *)
Definition writes_only {A} (S : path → Prop) (c : M A) : Prop :=
  ∀ w w' o, c w = (w', o) →
    ∀ p, w_fs w' !! p = w_fs w !! p ∨
         (S p ∧ ∃ data, w_fs w' !! p = Some (File data)).

(** The source and the output path of an archive operation. *)
Definition op_paths (op : path * path * list stream_event) : path * path :=
  (op.1.1, op.1.2).

(** The paths [main] gives to [zipFolder] for a folder. *)
Definition folder_paths (outputDir : path) (folder : dirent) : path * path :=
  (path_join filesSrc (name folder), path_join outputDir (zip_name folder)).

(** ** The pattern of [getGitHubInfo] (line 67)

    [/github\.com[:/]([^/]+)\/([^/]+?)(?:\.git)?$/], matched the way
    [String.prototype.match] does: the leftmost position at which the whole
    pattern matches. *)

(** [strip_prefix p s]: what is left of [s] after the literal [p]. *)
Fixpoint strip_prefix (p s : string) : option string :=
  match p with
  | EmptyString => Some s
  | String a p' =>
      match s with
      | String b s' => if Ascii.eqb a b then strip_prefix p' s' else None
      | EmptyString => None
      end
  end.

(** [[^/]*] to the end of the string. *)
Fixpoint no_slash (s : string) : bool :=
  match s with
  | EmptyString => true
  | String c s' => negb (Ascii.eqb c "/") && no_slash s'
  end.

(** [([^/]+)\/]: the characters before the first slash, and what follows
    it. *)
Fixpoint until_slash (s : string) : option (string * string) :=
  match s with
  | EmptyString => None
  | String c s' =>
      if Ascii.eqb c "/" then Some (EmptyString, s')
      else match until_slash s' with
           | Some (a, b) => Some (String c a, b)
           | None => None
           end
  end.

Definition ends_with_git (s : string) : bool :=
  String.eqb (String.substring (String.length s - 4) 4 s) ".git".

(** [([^/]+?)(?:\.git)?$]: the rest holds no slash and is not empty; the
    lazy group leaves a final [.git] to the optional group when something
    remains before it. *)
Definition lazy_repo (rest : string) : option string :=
  if no_slash rest then
    match rest with
    | EmptyString => None
    | _ =>
        if ends_with_git rest && Nat.ltb 4 (String.length rest)
        then Some (String.substring 0 (String.length rest - 4) rest)
        else Some rest
    end
  else None.

(** The pattern tried at the start of [s]. *)
Definition match_at (s : string) : option (string * string) :=
  match strip_prefix "github.com" s with
  | Some (String sep rest) =>
      if Ascii.eqb sep ":" || Ascii.eqb sep "/" then
        match until_slash rest with
        | Some (String c owner, rest') =>
            match lazy_repo rest' with
            | Some repo => Some (String c owner, repo)
            | None => None
            end
        | _ => None
        end
      else None
  | _ => None
  end.

Fixpoint github_match (s : string) : option (string * string) :=
  match match_at s with
  | Some r => Some r
  | None =>
      match s with
      | EmptyString => None
      | String _ s' => github_match s'
      end
  end.

(** [.git] occurs somewhere in [s]. *)
Fixpoint occurs_dot_git (s : string) : bool :=
  match s with
  | EmptyString => false
  | String c s' => String.prefix ".git" s || occurs_dot_git s'
  end.

(** ** A concrete environment and runs of the script on it *)

Module Demo.

Definition ok_run (data : string) : archive_run := ArchiveRun [OutputFinish; OutputClose] (Some data).

Definition base : env := {|
  parse_version := λ s, inr (VString s);
  sha512_base64 := λ s, ("sha:" +:+ s)%string;
  dir_size := 4096;
  archiver := λ _ src _, ok_run ("zip of " +:+ basename src);
  now := "2024-01-01T00:00:00.000Z";
  JSON_stringify := λ i, version i;
  GH_TOKEN := None;
  git_remote_url := inr "git@github.com:acme/tool.git"%string;
  match_github := λ _, Some ("acme", "tool.git")%string;
  octokit := λ _ _, inr (Release 7 "https://example/r/7")
|}.

Definition disk : fsmap :=
  <[ ["package.json"] := File "1.2.0" ]>
  (<[ ["src"] := Dir ]>
  (<[ ["src"; "files"] := Dir ]>
  (<[ ["src"; "files"; "core"] := Dir ]>
  (<[ ["src"; "files"; "README.md"] := File "hello" ]>
  (<[ ["src"; "files"; "plugin-a"] := Dir ]> ∅)))))%string.

(** The same project with the credential set and the release [v1.2.0]
    already on the remote. *)
Definition online : env := {|
  parse_version := parse_version base;
  sha512_base64 := sha512_base64 base;
  dir_size := dir_size base;
  archiver := archiver base;
  now := now base;
  JSON_stringify := JSON_stringify base;
  GH_TOKEN := Some "ghp_token"%string;
  git_remote_url := git_remote_url base;
  match_github := match_github base;
  octokit := octokit base
|}.

Definition with_octokit (client : list api_call → api_call → error + release)
    : env := {|
  parse_version := parse_version base;
  sha512_base64 := sha512_base64 base;
  dir_size := dir_size base;
  archiver := archiver base;
  now := now base;
  JSON_stringify := JSON_stringify base;
  GH_TOKEN := Some "ghp_token"%string;
  git_remote_url := git_remote_url base;
  match_github := match_github base;
  octokit := client
|}.

(** Every request is refused with HTTP 401. *)
Definition unauthorized : env :=
  with_octokit (λ _ _, inl (Error_ "Bad credentials" (Some 401))).

(** No release carries the tag yet: the lookup answers 404, the rest
    succeeds. *)
Definition fresh : env :=
  with_octokit (λ _ c,
    match c with
    | GetReleaseByTag _ _ _ => inl (Error_ "Not Found" (Some 404))
    | _ => inr (Release 8 "https://example/r/8")
    end).

Definition with_archiver (zip : fsmap → path → path → archive_run) : env := {|
  parse_version := parse_version base;
  sha512_base64 := sha512_base64 base;
  dir_size := dir_size base;
  archiver := zip;
  now := now base;
  JSON_stringify := JSON_stringify base;
  GH_TOKEN := None;
  git_remote_url := git_remote_url base;
  match_github := match_github base;
  octokit := octokit base
|}.

(** The archiver fails while reading the source. *)
Definition archive_fails : env :=
  with_archiver (λ _ _ _,
    ArchiveRun [ArchiveWarning (fs_error "ENOENT"); ArchiveError (fs_error "EACCES")]
      (Some "PK"%string)).

(** The output file cannot be written. *)
Definition output_fails : env :=
  with_archiver (λ _ _ _, ArchiveRun [OutputError (fs_error "ENOSPC")] None).

(** A source root without entries, and one with plain files only. *)
Definition empty_src : fsmap :=
  <[ ["package.json"] := File "1.2.0" ]>
  (<[ ["src"] := Dir ]>
  (<[ ["src"; "files"] := Dir ]> ∅))%string.

Definition only_files : fsmap :=
  <[ ["package.json"] := File "1.2.0" ]>
  (<[ ["src"] := Dir ]>
  (<[ ["src"; "files"] := Dir ]>
  (<[ ["src"; "files"; "README.md"] := File "hello" ]>
  (<[ ["src"; "files"; "LICENSE"] := File "MIT" ]> ∅))))%string.

Definition packaged : list artifact :=
  [Artifact "core.zip" "sha:zip of core" 11;
   Artifact "plugin-a.zip" "sha:zip of plugin-a" 15]%string.

Definition out_dir : path := ["dist"; "1.2.0"]%string.

End Demo.

(** ** Further environments and disks *)

Definition no_remote : env := {|
  parse_version := parse_version Demo.base;
  sha512_base64 := sha512_base64 Demo.base;
  dir_size := dir_size Demo.base;
  archiver := archiver Demo.base;
  now := now Demo.base;
  JSON_stringify := JSON_stringify Demo.base;
  GH_TOKEN := Some "ghp_token"%string;
  git_remote_url := inr "https://example.org/acme/tool.git"%string;
  match_github := λ _, None;
  octokit := octokit Demo.base
|}.

Definition empty_token : env := {|
  parse_version := parse_version Demo.base;
  sha512_base64 := sha512_base64 Demo.base;
  dir_size := dir_size Demo.base;
  archiver := archiver Demo.base;
  now := now Demo.base;
  JSON_stringify := JSON_stringify Demo.base;
  GH_TOKEN := Some ""%string;
  git_remote_url := git_remote_url Demo.base;
  match_github := match_github Demo.base;
  octokit := octokit Demo.base
|}.

Definition flaky : env :=
  Demo.with_octokit (λ _ c,
    match c with
    | UploadReleaseAsset _ _ _ "plugin-a.zip" _ =>
        inl (Error_ "Validation Failed" (Some 422))
    | _ => inr (Release 7 "https://example/r/7")
    end).

Definition cloned : env := {|
  parse_version := parse_version Demo.base;
  sha512_base64 := sha512_base64 Demo.base;
  dir_size := dir_size Demo.base;
  archiver := archiver Demo.base;
  now := now Demo.base;
  JSON_stringify := JSON_stringify Demo.base;
  GH_TOKEN := Some "ghp_token"%string;
  git_remote_url := inr "git@github.com:acme/tool.git"%string;
  match_github := github_match;
  octokit := octokit Demo.base
|}.


Definition no_source : fsmap :=
  <[ ["package.json"]%string := File "1.2.0"%string ]> ∅.

(** ** The primitives on small inputs *)

Example mkdir_makes_the_parents :
  mkdirSync ∅ ["dist"; "1.2.0"]%string =
  inr (<[ ["dist"; "1.2.0"] := Dir ]> (<[ ["dist"] := Dir ]> ∅))%string.
Proof. reflexivity. Qed.

Example mkdir_through_a_file :
  mkdirSync (<[ ["dist"] := File "x" ]> ∅) ["dist"; "1.2.0"]%string =
  inl (fs_error "ENOTDIR").
Proof. vm_compute. reflexivity. Qed.

Example readdir_lists_the_entries :
  readdirSync Demo.disk filesSrc =
  inr [Dirent "core" true; Dirent "README.md" false; Dirent "plugin-a" true].
Proof. vm_compute. reflexivity. Qed.

Example write_needs_the_directory :
  fs_write ∅ ["dist"; "a.zip"]%string "PK" = inl (fs_error "ENOENT").
Proof. vm_compute. reflexivity. Qed.

Example replace_removes_the_suffix :
  remove_dot_git "tool.git" = "tool"%string ∧
  remove_dot_git "tool" = "tool"%string.
Proof. split; reflexivity. Qed.

Example close_after_finish_resolves :
  settle [OutputFinish; OutputClose] = Resolved ∧
  settle [ArchiveWarning (fs_error "ENOENT"); ArchiveError (fs_error "EACCES");
          OutputClose] = Rejected (fs_error "EACCES") ∧
  settle [OutputFinish] = Pending.
Proof. by split_and!. Qed.

Example packaged_project :
  (package Demo.base (init Demo.disk)).2 =
  Ret ("1.2.0"%string, Demo.packaged, Demo.out_dir).
Proof. vm_compute. reflexivity. Qed.

(** ** Strings and paths *)

Lemma string_app_nil (t : string) : "" +:+ t = t.
Proof. reflexivity. Qed.

Lemma string_app_cons (c : ascii) (s t : string) :
  String c s +:+ t = String c (s +:+ t).
Proof. reflexivity. Qed.

Lemma string_app_length (s t : string) :
  String.length (s +:+ t) = (String.length s + String.length t)%nat.
Proof.
  induction s as [|c s IH]; [done |].
  rewrite string_app_cons. simpl. by rewrite IH.
Qed.

Lemma string_app_inj_r (s1 s2 t : string) : s1 +:+ t = s2 +:+ t → s1 = s2.
Proof.
  revert s2. induction s1 as [|c s1 IH]; intros [|d s2] H.
  - done.
  - apply (f_equal String.length) in H.
    rewrite !string_app_length in H. simpl in H. lia.
  - apply (f_equal String.length) in H.
    rewrite !string_app_length in H. simpl in H. lia.
  - rewrite !string_app_cons in H. injection H as -> H. f_equal. by apply IH.
Qed.

Lemma zip_name_not_info (n : string) : n +:+ ".zip" ≠ "info.json"%string.
Proof.
  intros H. apply (f_equal String.length) in H as Hlen.
  rewrite string_app_length in Hlen. simpl in Hlen.
  do 5 (destruct n as [|? n]; [simpl in Hlen; lia |]).
  destruct n as [|? n]; [| simpl in Hlen; lia].
  cbv [String.append] in H. discriminate H.
Qed.

Lemma path_join_inj (d : path) (a b : string) :
  path_join d a = path_join d b → a = b.
Proof. unfold path_join. intros H. apply app_inv_head in H. by injection H. Qed.

Lemma path_join_nonempty (d : path) (n : string) : path_join d n ≠ [].
Proof. unfold path_join. by destruct d. Qed.

Lemma fs_lookup_join (m : fsmap) (d : path) (n : string) :
  fs_lookup m (path_join d n) = m !! path_join d n.
Proof.
  unfold fs_lookup. pose proof (path_join_nonempty d n).
  by destruct (path_join d n).
Qed.

Lemma removelast_join (d : path) (n : string) : removelast (path_join d n) = d.
Proof. unfold path_join. apply removelast_last. Qed.

(** ** Directory listings *)

Lemma child_name_Some (d p : path) (n : string) :
  child_name d p = Some n ↔ p = path_join d n.
Proof.
  unfold path_join. revert p. induction d as [|x d IH]; intros p; simpl.
  - destruct p as [|y [|z p]]; split; intros H; by simplify_eq.
  - destruct p as [|y p]; [split; intros H; by simplify_eq |].
    case_decide as Hxy.
    + subst y. rewrite IH. split; intros H; by simplify_eq.
    + split; intros H; by simplify_eq.
Qed.

Lemma elem_of_children (m : fsmap) (d : path) (de : dirent) :
  de ∈ children m d ↔
  ∃ n, m !! path_join d (name de) = Some n ∧ isDirectory de = is_dir n.
Proof.
  unfold children. rewrite list_elem_of_omap. split.
  - intros ([p n] & Hin & He). apply elem_of_map_to_list in Hin.
    unfold entry_of in He. simpl in He.
    destruct (child_name d p) as [c|] eqn:Hc; simplify_eq/=.
    apply child_name_Some in Hc. subst. eauto.
  - intros (n & Hl & Hd). exists (path_join d (name de), n). split.
    + by apply elem_of_map_to_list.
    + unfold entry_of. simpl.
      rewrite (proj2 (child_name_Some d _ (name de)) eq_refl). simpl.
      destruct de; simpl in *. by subst.
Qed.

Lemma children_names (d : path) (l : list (path * node)) :
  name <$> omap (entry_of d) l = omap (child_name d) l.*1.
Proof.
  induction l as [|[p n] l IH]; [done |]. simpl. unfold entry_of at 1. simpl.
  destruct (child_name d p); simpl; [f_equal |]; exact IH.
Qed.

Lemma NoDup_omap_inj {A B} (f : A → option B) (l : list A) :
  (∀ x y z, f x = Some z → f y = Some z → x = y) →
  NoDup l → NoDup (omap f l).
Proof.
  intros Hf. induction 1 as [|x l Hx Hl IH]; simpl; [constructor |].
  destruct (f x) as [z|] eqn:Hz; [| done].
  constructor; [| done].
  rewrite list_elem_of_omap. intros (y & Hy & Hfy).
  by rewrite (Hf _ _ _ Hz Hfy) in Hx.
Qed.

Lemma NoDup_children (m : fsmap) (d : path) : NoDup (name <$> children m d).
Proof.
  unfold children. rewrite children_names.
  apply NoDup_omap_inj; [| apply NoDup_fst_map_to_list].
  intros p q n Hp Hq. apply child_name_Some in Hp, Hq. congruence.
Qed.

Lemma NoDup_filter_names (l : list dirent) :
  NoDup (name <$> l) → NoDup (name <$> List.filter isDirectory l).
Proof.
  induction l as [|x l IH]; simpl; [done |].
  rewrite !NoDup_cons. intros [Hx Hl].
  destruct (isDirectory x); simpl; [| by apply IH].
  rewrite NoDup_cons. split; [| by apply IH].
  rewrite list_elem_of_fmap in *. intros (y & Hy & Hin). apply Hx.
  exists y. split; [done |]. apply list_elem_of_In.
  apply list_elem_of_In, filter_In in Hin. tauto.
Qed.

(** ** Creating directories *)

Lemma mkdir_from_changes (rest : path) : ∀ (m : fsmap) (pre : path) m',
  mkdir_from m pre rest = inr m' →
  ∀ p, m' !! p = m !! p ∨
       (m !! p = None ∧ m' !! p = Some Dir ∧
        ∃ k, (0 < k ≤ length rest)%nat ∧ p = pre ++ take k rest).
Proof.
  induction rest as [|c rest IH]; intros m pre m' H p; simpl in H.
  - left. congruence.
  - destruct (m !! (pre ++ [c])) as [[data|]|] eqn:Hq; [done | |].
    + destruct (IH _ _ _ H p) as [Heq | (Hn & Hd & k & Hk & ->)]; [by left |].
      right. split_and!; [done.. |]. exists (S k). split; [simpl; lia |].
      by rewrite <- app_assoc.
    + destruct (IH _ _ _ H p) as [Heq | (Hn & Hd & k & Hk & ->)].
      * destruct (decide (p = pre ++ [c])) as [-> | Hne].
        -- right. rewrite lookup_insert_eq in Heq. split_and!; [done.. |].
           exists 1%nat. split; [simpl; lia |]. simpl. by rewrite take_0.
        -- left. by rewrite lookup_insert_ne in Heq.
      * right. destruct (decide (pre ++ [c] = (pre ++ [c]) ++ take k rest)) as [He | Hne].
        -- rewrite <- He in Hn. by rewrite lookup_insert_eq in Hn.
        -- rewrite lookup_insert_ne in Hn by done. split_and!; [done.. |].
           exists (S k). split; [simpl; lia |]. by rewrite <- app_assoc.
Qed.

Lemma mkdir_from_target (rest : path) : ∀ (m : fsmap) (pre : path) m',
  rest ≠ [] →
  mkdir_from m pre rest = inr m' →
  m' !! (pre ++ rest) = Some Dir.
Proof.
  induction rest as [|c rest IH]; intros m pre m' Hne H; [done |]. simpl in H.
  destruct rest as [|c' rest].
  - destruct (m !! (pre ++ [c])) as [[data|]|] eqn:Hq; simpl in H; simplify_eq.
    + done.
    + by rewrite lookup_insert_eq.
  - replace (pre ++ c :: c' :: rest) with ((pre ++ [c]) ++ c' :: rest)
      by (by rewrite <- app_assoc).
    destruct (m !! (pre ++ [c])) as [[data|]|] eqn:Hq; [done | |];
      by apply (IH _ _ _ ltac:(done) H).
Qed.

(** ** The archive loop *)

Section Archive.

Variable E : env.

Lemma bind_stopped {A B} (c : M A) (f : A → M B) (w w1 : world) (o : outcome A) :
  c w = (w1, o) → stopped o ≠ None →
  ∃ o', bind c f w = (w1, o') ∧ stopped o' = stopped o.
Proof.
  unfold bind. intros -> Hs. destruct o as [a|e|h]; [done | |]; eauto.
Qed.

Lemma fs_write_other (m m' : fsmap) (p q : path) (data : string) :
  fs_write m p data = inr m' → q ≠ p → m' !! q = m !! q.
Proof.
  unfold fs_write. intros H Hne.
  destruct p as [|c p]; [done |].
  destruct (fs_lookup m (removelast (c :: p))) as [[d|]|]; [done | | done].
  destruct (m !! (c :: p)) as [[d|]|]; simplify_eq;
    by rewrite lookup_insert_ne.
Qed.

Lemma fs_write_target (m m' : fsmap) (p : path) (data : string) :
  fs_write m p data = inr m' → m' !! p = Some (File data).
Proof.
  unfold fs_write. intros H.
  destruct p as [|c p]; [done |].
  destruct (fs_lookup m (removelast (c :: p))) as [[d|]|]; [done | | done].
  destruct (m !! (c :: p)) as [[d|]|]; simplify_eq;
    by rewrite lookup_insert_eq.
Qed.

Lemma zipFolder_effect (src out : path) (w w' : world) (o : outcome unit) :
  zipFolder E src out w = (w', o) →
  let run := archiver E (w_fs w) src out in
  w_net w' = w_net w ∧
  w_zips w' = w_zips w ++ [(src, out, events run)] ∧
  (∀ p, p ≠ out → w_fs w' !! p = w_fs w !! p) ∧
  (o = Ret tt ↔ settle (events run) = Resolved) ∧
  verdict (stopped o) (settle (events run)).
Proof.
  intros H. cbv zeta. unfold zipFolder in H.
  set (run := archiver E (w_fs w) src out) in *.
  assert (∀ p, p ≠ out →
    match written run with
    | Some data =>
        match fs_write (w_fs w) out data with
        | inr m' => m'
        | inl _ => w_fs w
        end
    | None => w_fs w
    end !! p = w_fs w !! p) as Hframe.
  { intros p Hp. destruct (written run) as [data|]; [| done].
    destruct (fs_write (w_fs w) out data) as [e|m'] eqn:Hw; [done |].
    by eapply fs_write_other. }
  destruct (settle (events run)) eqn:Hs; simplify_eq/=;
    split_and!; try done; by split.
Qed.

Lemma calculateSHA512_ret (p : path) (w w' : world) (h : string) :
  calculateSHA512 E p w = (w', Ret h) →
  w' = w ∧ ∃ data, fs_lookup (w_fs w) p = Some (File data) ∧
                   h = sha512_base64 E data.
Proof.
  unfold calculateSHA512, bind, read_fs, lift, readFileSync, ret. intros H.
  destruct (fs_lookup (w_fs w) p) as [[data|]|]; simplify_eq/=. eauto.
Qed.

Lemma getFileSize_ret (p : path) (w w' : world) (n : Z) (data : string) :
  fs_lookup (w_fs w) p = Some (File data) →
  getFileSize E p w = (w', Ret n) →
  w' = w ∧ n = Z.of_nat (String.length data).
Proof.
  unfold getFileSize, read_fs, lift, statSync_size. intros -> H.
  by simplify_eq/=.
Qed.

(** The archive operations of the loop: one per folder reached, each on a
    folder of the list, and a promise that did not resolve decides how the
    loop stops. *)
Lemma zip_folders_ops (outputDir : path) (folders : list dirent) :
  ∀ (files : list artifact) (w w' : world) (o : outcome (list artifact)),
  zip_folders E outputDir folders files w = (w', o) →
  ∃ ops, w_zips w' = w_zips w ++ ops ∧
    Forall (λ op : path * path * list stream_event,
              (∃ f, f ∈ folders ∧ op.1.1 = path_join filesSrc (name f) ∧
                    op.1.2 = path_join outputDir (zip_name f)) ∧
              verdict (stopped o) (settle op.2)) ops.
Proof.
  induction folders as [|folder rest IH]; intros files w w' o H.
  - simpl in H. unfold ret in H. simplify_eq. exists [].
    by rewrite app_nil_r.
  - simpl in H. unfold bind at 1 in H. simpl in H.
    match type of H with
    | bind ?c ?f ?w0 = _ =>
        destruct (c w0) as [w1 o1] eqn:Hz; set (k := f) in *
    end.
    pose proof Hz as Hz'.
    apply zipFolder_effect in Hz' as (_ & Hzips & _ & Hres & Hv).
    simpl in Hzips, Hres, Hv.
    set (evs := events (archiver E (w_fs w) (path_join filesSrc (name folder))
                          (path_join outputDir (name folder +:+ ".zip")))) in *.
    assert (∃ f, f ∈ folder :: rest ∧
              path_join filesSrc (name folder) = path_join filesSrc (name f) ∧
              path_join outputDir (name folder +:+ ".zip") =
                path_join outputDir (zip_name f)) as Hfolder
      by (exists folder; split; [by left | done]).
    destruct (stopped o1) as [st|] eqn:Hst.
    + destruct (bind_stopped _ k _ _ _ Hz) as (o' & Hb & Hs');
        [by rewrite Hst |].
      rewrite Hb in H. simplify_eq. exists [(path_join filesSrc (name folder),
        path_join outputDir (name folder +:+ ".zip"), evs)].
      split; [done |]. constructor; [| done]. split; [done |].
      simpl. rewrite Hs', Hst. exact Hv.
    + destruct o1 as [[]|e|h]; [| done..].
      assert (settle evs = Resolved) as Hsettle by by apply Hres.
      subst k. unfold bind at 1 in H. rewrite Hz in H.
      unfold bind at 1 in H.
      destruct (calculateSHA512 E _ w1) as [w2 [sha|e|h]] eqn:Hsha.
      * apply calculateSHA512_ret in Hsha as (-> & data & Hdata & ->).
        unfold bind at 1 in H.
        destruct (getFileSize E _ w1) as [w2 [sz|e|h]] eqn:Hsz.
        -- apply (getFileSize_ret _ _ _ _ _ Hdata) in Hsz as (-> & ->).
           unfold bind at 1 in H. simpl in H.
           apply IH in H as (ops & Hops & Hall). simpl in Hops.
           exists ((path_join filesSrc (name folder),
                    path_join outputDir (name folder +:+ ".zip"), evs) :: ops).
           split; [by rewrite Hops, Hzips, <- app_assoc |].
           constructor.
           ++ split; [done |]. simpl. by rewrite Hsettle.
           ++ eapply Forall_impl; [exact Hall |].
              intros op [(f & Hf & Hsrc & Hout) Hverd]. split; [| done].
              exists f. split; [by right | done].
        -- unfold getFileSize, read_fs, lift in Hsz. simplify_eq.
           exists [(path_join filesSrc (name folder),
                    path_join outputDir (name folder +:+ ".zip"), evs)].
           split; [done |]. constructor; [| done]. split; [done |].
           simpl. by rewrite Hsettle.
        -- unfold getFileSize, read_fs, lift in Hsz.
           destruct (statSync_size _ _ _); simplify_eq.
      * unfold calculateSHA512, bind, read_fs, lift in Hsha.
        destruct (readFileSync _ _); simplify_eq.
        exists [(path_join filesSrc (name folder),
                 path_join outputDir (name folder +:+ ".zip"), evs)].
        split; [done |]. constructor; [| done]. split; [done |].
        simpl. by rewrite Hsettle.
      * unfold calculateSHA512, bind, read_fs, lift in Hsha.
        destruct (readFileSync _ _); simplify_eq.
Qed.

Lemma zip_folders_ret (outputDir : path) (folders : list dirent) :
  ∀ (files files' : list artifact) (w w' : world),
  NoDup (name <$> folders) →
  zip_folders E outputDir folders files w = (w', Ret files') →
  ∃ new,
    files' = files ++ new ∧
    url <$> new = zip_name <$> folders ∧
    Forall (recorded_ok E (w_fs w') outputDir) new ∧
    (∀ p, (∀ f, f ∈ folders → p ≠ path_join outputDir (zip_name f)) →
          w_fs w' !! p = w_fs w !! p) ∧
    w_net w' = w_net w.
Proof.
  induction folders as [|folder rest IH]; intros files files' w w' Hnd H.
  - simpl in H. unfold ret in H. simplify_eq. exists [].
    rewrite app_nil_r. by split_and!.
  - simpl in H. unfold bind at 1 in H. simpl in H. unfold bind at 1 in H.
    destruct (zipFolder E _ _ _) as [w1 [[]|e|h]] eqn:Hz; [| done..].
    apply zipFolder_effect in Hz as (Hnet1 & _ & Hfr1 & _ & _).
    simpl in Hnet1, Hfr1.
    unfold bind at 1 in H.
    destruct (calculateSHA512 E _ w1) as [w2 [sha|e|h]] eqn:Hsha; [| done..].
    apply calculateSHA512_ret in Hsha as (-> & data & Hdata & ->).
    unfold bind at 1 in H.
    destruct (getFileSize E _ w1) as [w2 [sz|e|h]] eqn:Hsz; [| done..].
    apply (getFileSize_ret _ _ _ _ _ Hdata) in Hsz as (-> & ->).
    unfold bind at 1 in H. simpl in H.
    apply NoDup_cons in Hnd as [Hfresh Hnd].
    apply IH in H as (new & -> & Hurl & Hok & Hfr & Hnet); [| done].
    simpl in Hfr, Hnet. rewrite fs_lookup_join in Hdata.
    exists (Artifact (name folder +:+ ".zip") (sha512_base64 E data)
              (Z.of_nat (String.length data)) :: new).
    split_and!.
    + by rewrite <- app_assoc.
    + rewrite !fmap_cons. by rewrite Hurl.
    + constructor; [| done]. exists data. simpl. split_and!; [| done..].
      rewrite Hfr; [done |]. intros f Hf Heq.
      apply path_join_inj, string_app_inj_r in Heq.
      apply Hfresh. rewrite Heq. by apply list_elem_of_fmap_2.
    + intros p Hp. rewrite Hfr.
      * apply Hfr1, Hp. by left.
      * intros f Hf. apply Hp. by right.
    + by rewrite Hnet.
Qed.

End Archive.

(** ** The stages of [main] *)

Section Stages.

Variable E : env.

Lemma prepare_output_effect (w w1 : world) (o : outcome (string * path)) :
  prepare_output E w = (w1, o) →
  w_net w1 = w_net w ∧ w_zips w1 = w_zips w ∧
  (∀ h, o ≠ Halt h) ∧
  (∀ p, w_fs w1 !! p = w_fs w !! p ∨
        (w_fs w !! p = None ∧ w_fs w1 !! p = Some Dir ∧
         (length p ≤ 2)%nat ∧ head p = Some "dist"%string)) ∧
  (∀ version outputDir, o = Ret (version, outputDir) →
     outputDir = path_join outputDist version ∧
     existsSync (w_fs w1) outputDir = true ∧
     (existsSync (w_fs w) outputDir = false → w_fs w1 !! outputDir = Some Dir)).
Proof.
  unfold prepare_output, getVersion, bind, read_fs, lift, log, file_exists,
    update_fs, throw, ret. simpl. intros H.
  assert (∀ p : path, w_fs w !! p = w_fs w !! p ∨
        (w_fs w !! p = None ∧ w_fs w !! p = Some Dir ∧
         (length p ≤ 2)%nat ∧ head p = Some "dist"%string)) as Hsame
    by (by left).
  destruct (readFileSync (w_fs w) ["package.json"%string]) as [e|json];
    [by simplify_eq/=; split_and! |].
  destruct (parse_version E json) as [e|[version|other]];
    [by simplify_eq/=; split_and! | | by simplify_eq/=; split_and!].
  simpl in H.
  destruct (existsSync (w_fs w) (path_join outputDist version)) eqn:Hex.
  { injection H as <- <-. simpl. split_and!; [done.. |].
    intros ?? [= <- <-]. split_and!; [done.. |]. by rewrite Hex. }
  simpl in H.
  destruct (mkdirSync (w_fs w) (path_join outputDist version)) as [e|m'] eqn:Hmk.
  { injection H as <- <-. simpl. by split_and!. }
  injection H as <- <-. simpl. split_and!; [done.. | |].
  - intros p. destruct (mkdir_from_changes _ _ _ _ Hmk p)
      as [Heq | (Hn & Hd & k & Hk & ->)]; [by left |].
    right. split_and!; [done.. | |].
    + rewrite app_nil_l, length_take. simpl. lia.
    + destruct k; [lia | done].
  - intros ?? [= <- <-]. split; [done |].
    pose proof (mkdir_from_target _ _ [] _ (path_join_nonempty _ _) Hmk) as Ht.
    rewrite app_nil_l in Ht. split; [| done].
    unfold existsSync. by rewrite fs_lookup_join, Ht.
Qed.

(** The version [prepare_output] returns is the string [getVersion] read. *)
Lemma prepare_output_version (w w1 : world) (o : outcome (string * path)) :
  prepare_output E w = (w1, o) →
  ∀ version outputDir, o = Ret (version, outputDir) →
    (getVersion E w).2 = Ret (VString version).
Proof.
  unfold prepare_output. unfold bind at 1. intros H version outputDir ->.
  destruct (getVersion E w) as [w0 [[v|other]|e|h]]; [| done..].
  unfold bind at 1, log in H. simpl in H. unfold bind at 1 in H.
  destruct (file_exists _ _) as [w2 [present|e|h]]; [| done..].
  unfold bind at 1 in H.
  destruct ((if present then ret tt else update_fs _) w2) as [w3 [[]|e|h]];
    [| done..].
  unfold ret in H. by simplify_eq.
Qed.

(** [list_folders], written out by cases. *)
Lemma list_folders_eq (w : world) :
  list_folders w =
  match readdirSync (w_fs w) filesSrc with
  | inl e => (w, Throw e)
  | inr _ =>
      match folders_of (w_fs w) with
      | [] => (World (w_fs w) (w_log w ++ [MsgNoFolders]) (w_net w) (w_zips w),
               Halt (ExitCode 1))
      | folders =>
          (World (w_fs w)
             (w_log w ++ MsgFound (length folders)
                           :: map (λ folder, MsgFolder (name folder)) folders)
             (w_net w) (w_zips w),
           Ret folders)
      end
  end.
Proof.
  unfold list_folders, bind, read_fs, lift, readdirSync, folders_of.
  destruct (fs_lookup (w_fs w) filesSrc) as [[data|]|]; [done | | done].
  by destruct (List.filter isDirectory (children (w_fs w) filesSrc)).
Qed.

Lemma elem_of_folders_of (m : fsmap) (f : dirent) :
  f ∈ folders_of m ↔
  m !! path_join filesSrc (name f) = Some Dir ∧ isDirectory f = true.
Proof.
  unfold folders_of. rewrite list_elem_of_In, filter_In, <- list_elem_of_In.
  rewrite elem_of_children. split.
  - intros [(n & Hn & Hd) Ht]. rewrite Ht in Hd. by destruct n.
  - intros [Hn Ht]. split; [| done]. exists Dir. by rewrite Ht.
Qed.

Lemma folders_of_nil (m : fsmap) :
  folders_of m = [] ↔ ∀ n, m !! path_join filesSrc n ≠ Some Dir.
Proof.
  split.
  - intros Hnil n Hn.
    assert (Dirent n true ∈ folders_of m) as Hin
      by by apply elem_of_folders_of.
    rewrite Hnil in Hin. by apply not_elem_of_nil in Hin.
  - intros Hno. destruct (folders_of m) as [|f l] eqn:Hf; [done |].
    assert (f ∈ folders_of m) as Hin by (rewrite Hf; by left).
    apply elem_of_folders_of in Hin as [Hin _]. by apply Hno in Hin.
Qed.

Lemma NoDup_folders_of (m : fsmap) : NoDup (name <$> folders_of m).
Proof. apply NoDup_filter_names, NoDup_children. Qed.

Lemma write_info_eq (version : string) (files : list artifact)
    (outputDir : path) (w : world) :
  write_info E version files outputDir w =
  match fs_write (w_fs w) (path_join outputDir "info.json")
          (JSON_stringify E (Info version files (now E))) with
  | inl e => (w, Throw e)
  | inr m' =>
      (World m'
         (w_log w ++ MsgDone outputDir
            :: map (λ file, MsgFileLine (url file) (size file)) files
            ++ [MsgInfoLine])
         (w_net w) (w_zips w), Ret tt)
  end.
Proof.
  unfold write_info, bind, update_fs, logs, generateInfoJson.
  by destruct (fs_write _ _ _).
Qed.

(** A successful [package] went through its four stages. *)
Lemma package_ret (w w' : world) version files outputDir :
  package E w = (w', Ret (version, files, outputDir)) →
  ∃ w1 w2 w3 folders,
    prepare_output E w = (w1, Ret (version, outputDir)) ∧
    list_folders w1 = (w2, Ret folders) ∧
    zip_folders E outputDir folders [] w2 = (w3, Ret files) ∧
    write_info E version files outputDir w3 = (w', Ret tt).
Proof.
  unfold package. unfold bind at 1. intros H.
  destruct (prepare_output E w) as [w1 [[v od]|e|h]] eqn:H1; [| done..].
  unfold bind at 1 in H.
  destruct (list_folders w1) as [w2 [folders|e|h]] eqn:H2; [| done..].
  unfold bind at 1 in H.
  destruct (zip_folders E od folders [] w2) as [w3 [fs|e|h]] eqn:H3; [| done..].
  unfold bind at 1 in H.
  destruct (write_info E v fs od w3) as [w4 [[]|e|h]] eqn:H4; [| done..].
  unfold ret in H. simplify_eq. by exists w1, w2, w3, folders.
Qed.

(** The facts about the disk that a successful [package] establishes. *)
Lemma package_disk (w w' : world) version files outputDir :
  package E w = (w', Ret (version, files, outputDir)) →
  outputDir = path_join outputDist version ∧
  w_fs w' !! path_join outputDir "info.json" =
    Some (File (JSON_stringify E (Info version files (now E)))) ∧
  Forall (recorded_ok E (w_fs w') outputDir) files ∧
  (∀ a, a ∈ files →
     ∃ n, url a = n +:+ ".zip" ∧ w_fs w !! path_join filesSrc n = Some Dir) ∧
  (∀ n, w_fs w !! path_join filesSrc n = Some Dir →
     ∃ a, a ∈ files ∧ url a = n +:+ ".zip") ∧
  w_net w' = w_net w.
Proof.
  intros H. apply package_ret in H as (w1 & w2 & w3 & folders & H1 & H2 & H3 & H4).
  apply prepare_output_effect in H1 as (Hnet1 & _ & _ & Hfs1 & Hret1).
  destruct (Hret1 _ _ eq_refl) as (Hod & _ & _).
  assert (∀ n, w_fs w1 !! path_join filesSrc n = w_fs w !! path_join filesSrc n)
    as Hsrc.
  { intros n. destruct (Hfs1 (path_join filesSrc n)) as [Heq | (_ & _ & _ & Hhd)];
      [done | done]. }
  rewrite list_folders_eq in H2.
  destruct (readdirSync (w_fs w1) filesSrc) as [e|items]; [done |].
  assert (folders = folders_of (w_fs w1) ∧ w_fs w2 = w_fs w1 ∧ w_net w2 = w_net w1)
    as (-> & Hfs2 & Hnet2).
  { destruct (folders_of (w_fs w1)); [done |]. injection H2 as <- <-.
    by split_and!. }
  apply zip_folders_ret in H3 as (new & Hnew & Hurl & Hok & _ & Hnet3);
    [| apply NoDup_folders_of].
  simpl in Hnew. subst new.
  rewrite write_info_eq in H4.
  destruct (fs_write (w_fs w3) _ _) as [e|m'] eqn:Hw; [done |].
  injection H4 as <-. simpl.
  split_and!.
  - done.
  - by eapply fs_write_target.
  - apply Forall_forall. intros a Ha.
    destruct (proj1 (Forall_forall _ _) Hok a Ha) as (data & Hd & Hs & Hz).
    exists data. split_and!; [| done..].
    rewrite (fs_write_other _ _ _ _ _ Hw); [done |].
    intros Heq. apply path_join_inj in Heq.
    apply (list_elem_of_fmap_2 url) in Ha. rewrite Hurl in Ha.
    apply list_elem_of_fmap in Ha as (f & Hf & _).
    rewrite Heq in Hf. by destruct (zip_name_not_info (name f)).
  - intros a Ha. apply (list_elem_of_fmap_2 url) in Ha. rewrite Hurl in Ha.
    apply list_elem_of_fmap in Ha as (f & Hf & Hin).
    apply elem_of_folders_of in Hin as [Hin _]. exists (name f).
    split; [done |]. by rewrite <- Hsrc.
  - intros n Hn. rewrite <- Hsrc in Hn.
    assert (Dirent n true ∈ folders_of (w_fs w1)) as Hin
      by by apply elem_of_folders_of.
    apply (list_elem_of_fmap_2 zip_name) in Hin. rewrite <- Hurl in Hin.
    apply list_elem_of_fmap in Hin as (a & Ha & Hin). by exists a.
  - congruence.
Qed.

End Stages.

(** ** The publisher *)

Section Publisher.

Variable E : env.

Lemma confined_same {A} (P : api_call → Prop) (w : world) (o : outcome A) :
  (∀ h, o ≠ Halt h) →
  w_fs w = w_fs w ∧ w_zips w = w_zips w ∧ (∀ h, o ≠ Halt h) ∧
  ∃ calls, w_net w = w_net w ++ calls ∧ Forall P calls.
Proof. intros Ho. split_and!; [done.. |]. exists []. by rewrite app_nil_r. Qed.

Lemma confined_ret {A} (P : api_call → Prop) (a : A) : confined P (ret a).
Proof. intros w w' o [= <- <-]. by apply confined_same. Qed.

Lemma confined_throw {A} (P : api_call → Prop) (e : error) : confined P (@throw A e).
Proof. intros w w' o [= <- <-]. by apply confined_same. Qed.

Lemma confined_lift {A} (P : api_call → Prop) (r : error + A) : confined P (lift r).
Proof.
  intros w w' o [= <- <-]. apply confined_same. by destruct r.
Qed.

Lemma confined_read_fs {A} (P : api_call → Prop) (f : fsmap → error + A) : confined P (read_fs f).
Proof. intros w w' o H. by apply (confined_lift P (f (w_fs w)) w). Qed.

Lemma confined_file_exists (P : api_call → Prop) (p : path) : confined P (file_exists p).
Proof. intros w w' o [= <- <-]. by apply confined_same. Qed.

Lemma confined_log (P : api_call → Prop) (l : msg) : confined P (log l).
Proof.
  intros w w' o [= <- <-]. simpl. split_and!; [done.. |].
  exists []. by rewrite app_nil_r.
Qed.

Lemma confined_call (P : api_call → Prop) (c : api_call) :
  P c → confined P (call E c).
Proof.
  intros Hc w w' o [= <- <-]. simpl. split_and!; [done | done | |].
  - by destruct (octokit E (w_net w) c).
  - exists [c]. split; [done |]. by constructor.
Qed.

Lemma confined_bind {A B} (P : api_call → Prop) (c : M A) (f : A → M B) :
  confined P c → (∀ a, confined P (f a)) → confined P (bind c f).
Proof.
  intros Hc Hf w w' o H. unfold bind in H.
  destruct (c w) as [w1 [a|e|h]] eqn:Hcw.
  - destruct (Hc _ _ _ Hcw) as (Hfs & Hz & _ & calls & Hnet & HP).
    destruct (Hf a _ _ _ H) as (Hfs' & Hz' & Hh & calls' & Hnet' & HP').
    split_and!; [congruence | congruence | done |].
    exists (calls ++ calls'). split; [| by apply Forall_app].
    by rewrite Hnet', Hnet, <- app_assoc.
  - simplify_eq.
    destruct (Hc _ _ _ Hcw) as (Hfs & Hz & _ & calls & Hnet & HP).
    split_and!; [done.. |]. by exists calls.
  - destruct (Hc _ _ _ Hcw) as (_ & _ & Hh & _). by destruct (Hh h).
Qed.

Lemma confined_try_catch {A} (P : api_call → Prop) (c : M A) (handler : error → M A) :
  confined P c → (∀ e, confined P (handler e)) → confined P (try_catch c handler).
Proof.
  intros Hc Hh w w' o H. unfold try_catch in H.
  destruct (c w) as [w1 [a|e|h]] eqn:Hcw.
  - simplify_eq. by apply (Hc _ _ _ Hcw).
  - destruct (Hc _ _ _ Hcw) as (Hfs & Hz & _ & calls & Hnet & HP).
    destruct (Hh e _ _ _ H) as (Hfs' & Hz' & Hhalt & calls' & Hnet' & HP').
    split_and!; [congruence | congruence | done |].
    exists (calls ++ calls'). split; [| by apply Forall_app].
    by rewrite Hnet', Hnet, <- app_assoc.
  - destruct (Hc _ _ _ Hcw) as (_ & _ & Hno & _). by destruct (Hno h).
Qed.

Lemma confined_weaken {A} (P Q : api_call → Prop) (c : M A) :
  (∀ x, P x → Q x) → confined P c → confined Q c.
Proof.
  intros HPQ Hc w w' o H.
  destruct (Hc _ _ _ H) as (Hfs & Hz & Hh & calls & Hnet & HP).
  split_and!; [done.. |]. exists calls. split; [done |].
  by eapply Forall_impl.
Qed.

Lemma confined_getGitHubInfo (P : api_call → Prop) : confined P (getGitHubInfo E).
Proof.
  unfold getGitHubInfo. apply confined_bind; [apply confined_lift |].
  intros remoteUrl. destruct (match_github E remoteUrl) as [[owner repo]|].
  - apply confined_ret.
  - apply confined_throw.
Qed.

Lemma confined_upload_files (owner repo : string) (release_id : Z)
    (outputDir : path) (files : list artifact) :
  confined (is_upload owner repo release_id)
    (upload_files E owner repo release_id outputDir files).
Proof.
  induction files as [|file rest IH]; simpl; [apply confined_ret |].
  apply confined_bind; [apply confined_file_exists |]. intros present.
  apply confined_bind; [| done].
  destruct present; [| apply confined_ret].
  apply confined_bind; [apply confined_log |]. intros _.
  apply confined_bind; [apply confined_read_fs |]. intros fileBuffer.
  apply confined_bind; [| intros _; apply confined_log].
  apply confined_call. by eexists _, _.
Qed.

Lemma confined_upload_info (owner repo : string) (release_id : Z)
    (outputDir : path) :
  confined (is_upload owner repo release_id)
    (upload_info E owner repo release_id outputDir).
Proof.
  unfold upload_info.
  apply confined_bind; [apply confined_file_exists |]. intros present.
  destruct present; [| apply confined_ret].
  apply confined_bind; [apply confined_log |]. intros _.
  apply confined_bind; [apply confined_read_fs |]. intros fileBuffer.
  apply confined_bind; [| intros _; apply confined_log].
  apply confined_call. by eexists _, _.
Qed.

Lemma confined_find_or_create_release (owner repo version : string) :
  confined (λ _, True) (find_or_create_release E owner repo version).
Proof.
  unfold find_or_create_release. apply confined_try_catch.
  - apply confined_bind; [by apply confined_call |]. intros release.
    apply confined_bind; [apply confined_log | intros _; apply confined_ret].
  - intros error. case_decide; [| apply confined_throw].
    apply confined_bind; [by apply confined_call |]. intros release.
    apply confined_bind; [apply confined_log | intros _; apply confined_ret].
Qed.

Lemma confined_publish (version : string) (files : list artifact)
    (outputDir : path) :
  confined (λ _, True) (publish E version files outputDir).
Proof.
  unfold publish. apply confined_bind; [apply confined_getGitHubInfo |].
  intros [owner repo].
  apply confined_bind; [apply confined_log |]. intros _.
  apply confined_bind; [apply confined_find_or_create_release |].
  intros release.
  apply confined_bind; [apply confined_log |]. intros _.
  apply confined_bind;
    [eapply confined_weaken; [| apply confined_upload_files]; done |].
  intros _.
  apply confined_bind;
    [eapply confined_weaken; [| apply confined_upload_info]; done |].
  intros _. apply confined_log.
Qed.

Lemma confined_publish_failed (error : error) :
  confined (λ _, True) (publish_failed error).
Proof.
  unfold publish_failed. apply confined_bind; [apply confined_log |].
  intros _. case_decide; [apply confined_log | apply confined_ret].
Qed.

Lemma confined_createGitHubRelease (version : string) (files : list artifact)
    (outputDir : path) :
  confined (λ _, True) (createGitHubRelease E version files outputDir).
Proof.
  unfold createGitHubRelease. destruct (token_missing E).
  - apply confined_log.
  - apply confined_try_catch;
      [apply confined_publish | apply confined_publish_failed].
Qed.

(** The [catch] block always completes normally, with its one or two
    lines on the error stream. *)
Lemma publish_failed_eq (error : error) (w : world) :
  publish_failed error w =
  (World (w_fs w)
     (w_log w ++ ErrReleaseFailed (message error)
        :: (if decide (status error = Some 401) then [ErrTokenHint] else []))
     (w_net w) (w_zips w), Ret tt).
Proof.
  unfold publish_failed, bind, log, ret. simpl.
  case_decide; simpl; [by rewrite <- app_assoc | done].
Qed.

Lemma createGitHubRelease_returns (version : string) (files : list artifact)
    (outputDir : path) (w : world) :
  (createGitHubRelease E version files outputDir w).2 = Ret tt.
Proof.
  unfold createGitHubRelease. destruct (token_missing E); [done |].
  unfold try_catch.
  destruct (publish E version files outputDir w) as [w1 [[]|e|h]] eqn:Hp.
  - done.
  - by rewrite publish_failed_eq.
  - destruct (confined_publish _ _ _ _ _ _ Hp) as (_ & _ & Hh & _).
    by destruct (Hh h).
Qed.

End Publisher.

(** ** The whole run *)

Section Run.

Variable E : env.

(** [main] by the outcome of the packaging stage: publishing never changes
    how the run ends, a thrown error is reported and ends the process with
    status 1. *)
Lemma main_eq (w : world) :
  main E w =
  match package E w with
  | (w1, Ret (version, files, outputDir)) =>
      ((createGitHubRelease E version files outputDir w1).1, Ret tt)
  | (w1, Throw e) =>
      (World (w_fs w1) (w_log w1 ++ [ErrFailed (message e)]) (w_net w1)
         (w_zips w1), Halt (ExitCode 1))
  | (w1, Halt h) => (w1, Halt h)
  end.
Proof.
  unfold main, try_catch, main_body. unfold bind at 1.
  destruct (package E w) as [w1 [[[version files] outputDir]|e|h]]; [| done..].
  pose proof (createGitHubRelease_returns E version files outputDir w1) as Hr.
  destruct (createGitHubRelease E version files outputDir w1) as [w2 o].
  simpl in Hr. by subst o.
Qed.

Lemma offline_bind {A B} (c : M A) (f : A → M B) :
  offline c → (∀ a, offline (f a)) → offline (bind c f).
Proof.
  intros Hc Hf w w' o H. unfold bind in H.
  destruct (c w) as [w1 [a|e|h]] eqn:Hcw.
  - rewrite (Hf _ _ _ _ H). by eapply Hc.
  - simplify_eq. by eapply Hc.
  - simplify_eq. by eapply Hc.
Qed.

Lemma offline_read_fs {A} (f : fsmap → error + A) : offline (read_fs f).
Proof. by intros w w' o [= <- <-]. Qed.

Lemma offline_log (l : msg) : offline (log l).
Proof. by intros w w' o [= <- <-]. Qed.

Lemma offline_zipFolder (src out : path) : offline (zipFolder E src out).
Proof. intros w w' o H. by apply zipFolder_effect in H as (Hnet & _). Qed.

Lemma zip_folders_net (outputDir : path) (folders : list dirent) :
  ∀ files : list artifact, offline (zip_folders E outputDir folders files).
Proof.
  induction folders as [|folder rest IH]; intros files.
  - by intros w w' o [= <- <-].
  - simpl. apply offline_bind; [apply offline_log |]. intros _.
    apply offline_bind; [apply offline_zipFolder |]. intros _.
    apply offline_bind; [| intros sha].
    { apply offline_bind; [apply offline_read_fs |]. intros fileBuffer.
      by intros w w' o [= <- <-]. }
    apply offline_bind; [apply offline_read_fs |]. intros sz.
    apply offline_bind; [apply offline_log |]. intros _. apply IH.
Qed.

(** [package] by stages. *)
Lemma package_eq (w : world) :
  package E w =
  match prepare_output E w with
  | (w1, Ret (version, outputDir)) =>
      match list_folders w1 with
      | (w2, Ret folders) =>
          match zip_folders E outputDir folders [] w2 with
          | (w3, Ret files) =>
              match write_info E version files outputDir w3 with
              | (w4, Ret _) => (w4, Ret (version, files, outputDir))
              | (w4, Throw e) => (w4, Throw e)
              | (w4, Halt h) => (w4, Halt h)
              end
          | (w3, Throw e) => (w3, Throw e)
          | (w3, Halt h) => (w3, Halt h)
          end
      | (w2, Throw e) => (w2, Throw e)
      | (w2, Halt h) => (w2, Halt h)
      end
  | (w1, Throw e) => (w1, Throw e)
  | (w1, Halt h) => (w1, Halt h)
  end.
Proof.
  unfold package. unfold bind at 1.
  destruct (prepare_output E w) as [w1 [[version outputDir]|e|h]]; [| done..].
  unfold bind at 1.
  destruct (list_folders w1) as [w2 [folders|e|h]]; [| done..].
  unfold bind at 1.
  destruct (zip_folders E outputDir folders [] w2) as [w3 [files|e|h]];
    [| done..].
  unfold bind at 1. by destruct (write_info E version files outputDir w3)
    as [w4 [[]|e|h]].
Qed.

(** What [package] leaves in the traces, however it ends: no remote call,
    and archive operations only on directories of the source root, each
    one resolved unless it is the reason the stage stopped. *)
Lemma package_traces (w w' : world)
    (o : outcome (string * list artifact * path)) :
  package E w = (w', o) →
  w_net w' = w_net w ∧
  ∃ ops, w_zips w' = w_zips w ++ ops ∧
    Forall (λ op : path * path * list stream_event,
              (∃ n, op.1.1 = path_join filesSrc n ∧
                    w_fs w !! op.1.1 = Some Dir) ∧
              verdict (stopped o) (settle op.2)) ops.
Proof.
  rewrite package_eq.
  destruct (prepare_output E w) as [w1 o1] eqn:H1.
  apply prepare_output_effect in H1 as (Hnet1 & Hz1 & _ & Hfs1 & _).
  assert (∀ (o : outcome (string * list artifact * path)) w2,
    w_net w2 = w_net w1 → w_zips w2 = w_zips w1 →
    w_net w2 = w_net w ∧
    ∃ ops, w_zips w2 = w_zips w ++ ops ∧
      Forall (λ op : path * path * list stream_event,
                (∃ n, op.1.1 = path_join filesSrc n ∧
                      w_fs w !! op.1.1 = Some Dir) ∧
                verdict (stopped o) (settle op.2)) ops) as Hnone.
  { intros o' w2 Hn Hz. split; [congruence |]. exists [].
    rewrite app_nil_r. split; [congruence | done]. }
  destruct o1 as [[version outputDir]|e|h];
    [| intros [= <- <-]; by apply Hnone..].
  rewrite list_folders_eq.
  destruct (readdirSync (w_fs w1) filesSrc) as [e|items];
    [intros [= <- <-]; by apply Hnone |].
  destruct (folders_of (w_fs w1)) as [|f fs] eqn:Hfolders;
    [intros [= <- <-]; by apply Hnone |].
  cbv beta iota. rewrite <- Hfolders. cbv beta iota zeta.
  match goal with
  | |- context [zip_folders E outputDir _ [] ?w0] => set (w2 := w0)
  end.
  destruct (zip_folders E outputDir (folders_of (w_fs w1)) [] w2)
    as [w3 o3] eqn:H3.
  pose proof (zip_folders_net _ _ _ _ _ _ H3) as Hnet3.
  apply zip_folders_ops in H3 as (ops & Hops & Hall).
  assert (Forall (λ op : path * path * list stream_event,
            ∃ n, op.1.1 = path_join filesSrc n ∧
                 w_fs w !! op.1.1 = Some Dir) ops) as Hdirs.
  { eapply Forall_impl; [exact Hall |].
    intros op [(fo & Hin & Hsrc & _) _]. exists (name fo). split; [done |].
    apply elem_of_folders_of in Hin as [Hin _]. rewrite Hsrc.
    destruct (Hfs1 (path_join filesSrc (name fo)))
      as [Heq | (_ & _ & _ & Hhd)]; [congruence | done]. }
  assert (∀ (o : outcome (string * list artifact * path)) w4,
    w_net w4 = w_net w3 → w_zips w4 = w_zips w3 →
    stopped o = stopped o3 ∨ (∃ files, o3 = Ret files) →
    w_net w4 = w_net w ∧
    ∃ ops, w_zips w4 = w_zips w ++ ops ∧
      Forall (λ op : path * path * list stream_event,
                (∃ n, op.1.1 = path_join filesSrc n ∧
                      w_fs w !! op.1.1 = Some Dir) ∧
                verdict (stopped o) (settle op.2)) ops) as Hsome.
  { intros o' w4 Hn Hz Ho. split; [subst w2; simpl in *; congruence |].
    exists ops. split; [subst w2; simpl in *; congruence |].
    apply Forall_forall. intros op Hop.
    split; [exact (proj1 (Forall_forall _ _) Hdirs op Hop) |].
    destruct (proj1 (Forall_forall _ _) Hall op Hop) as [_ Hv].
    destruct Ho as [-> | [files ->]]; [done |].
    simpl in Hv. unfold verdict in *. by destruct (settle op.2). }
  destruct o3 as [files|e|h];
    [| intros [= <- <-]; apply Hsome; auto..].
  rewrite write_info_eq.
  destruct (fs_write (w_fs w3) _ _) as [e|m'];
    intros [= <- <-]; apply Hsome; simpl; eauto.
Qed.

End Run.

(** ** Properties of the pipeline *)

(** C1. When [main] has written the manifest, the disk holds [info.json]
    with the serialised [version], [files] and date; every folder of the
    source root has its entry in [files]; and every entry of [files] names
    a zip file of the output directory whose bytes hash (SHA-512, base64) to
    the recorded [sha512] and whose length in bytes is the recorded
    [size]. *)
Theorem manifest_entries_match_disk (E : env) (m : fsmap)
    (version : string) (files : list artifact) (outputDir : path) :
  (package E (init m)).2 = Ret (version, files, outputDir) →
  let disk := w_fs (package E (init m)).1 in
  disk !! path_join outputDir "info.json" =
    Some (File (JSON_stringify E (Info version files (now E)))) ∧
  (∀ n, m !! path_join filesSrc n = Some Dir →
        ∃ a, a ∈ files ∧ url a = n +:+ ".zip") ∧
  (∀ a, a ∈ files →
        ∃ data, disk !! path_join outputDir (url a) = Some (File data) ∧
                sha512 a = sha512_base64 E data ∧
                size a = Z.of_nat (String.length data)).
Proof.
  intros H disk. subst disk.
  destruct (package E (init m)) as [w o] eqn:Hp. simpl in H. subst o.
  apply package_disk in Hp as (_ & Hinfo & Hok & _ & Hall & _). simpl.
  split_and!; [done | done |].
  intros a Ha. exact (proj1 (Forall_forall _ _) Hok a Ha).
Qed.

Lemma manifest_entries_match_disk_witness :
  let disk := w_fs (package Demo.base (init Demo.disk)).1 in
  ∃ data, disk !! path_join Demo.out_dir "core.zip" = Some (File data) ∧
          "sha:zip of core"%string = sha512_base64 Demo.base data ∧
          11 = Z.of_nat (String.length data).
Proof.
  destruct (manifest_entries_match_disk Demo.base Demo.disk "1.2.0"
              Demo.packaged Demo.out_dir) as (_ & _ & Hentries).
  - vm_compute. reflexivity.
  - apply (Hentries (Artifact "core.zip" "sha:zip of core" 11)). by left.
Defined.

(** C2, as stated: a run with the credential unset does not always end with
    status 0.  With no folder in the source root it ends with status 1. *)
Lemma token_unset_run_can_fail :
  ¬ (∀ (E : env) (m : fsmap),
       GH_TOKEN E = None → exit_status (main E (init m)).2 = 0).
Proof.
  intros H. specialize (H Demo.base Demo.empty_src eq_refl).
  vm_compute in H. discriminate H.
Qed.

(** C2, amended.  With the credential unset no run issues a remote call;
    and a run whose packaging stage succeeds ends normally (status 0) with
    the manifest and one zip file per source folder on disk. *)
Theorem token_unset_publishes_nothing (E : env) (m : fsmap) :
  GH_TOKEN E = None →
  let r := main E (init m) in
  w_net r.1 = [] ∧
  ∀ version files outputDir,
    (package E (init m)).2 = Ret (version, files, outputDir) →
    r.2 = Ret tt ∧ exit_status r.2 = 0 ∧
    w_fs r.1 !! path_join outputDir "info.json" =
      Some (File (JSON_stringify E (Info version files (now E)))) ∧
    ∀ n, m !! path_join filesSrc n = Some Dir →
         ∃ data, w_fs r.1 !! path_join outputDir (n +:+ ".zip") = Some (File data).
Proof.
  intros Htok r. subst r. rewrite main_eq.
  assert (∀ version files outputDir w,
    createGitHubRelease E version files outputDir w =
    (World (w_fs w) (w_log w ++ [MsgTokenMissing]) (w_net w) (w_zips w), Ret tt))
    as Hskip.
  { intros. unfold createGitHubRelease, token_missing. by rewrite Htok. }
  destruct (package E (init m)) as [w o] eqn:Hp.
  pose proof (package_traces _ _ _ _ Hp) as [Hnet _]. simpl in Hnet.
  split.
  - destruct o as [[[version files] outputDir]|e|h]; [| done..].
    by rewrite Hskip.
  - intros version files outputDir Ho. simpl in Ho. subst o.
    rewrite Hskip. simpl.
    apply package_disk in Hp as (_ & Hinfo & Hok & _ & Hall & _).
    split_and!; [done.. |].
    intros n Hn. destruct (Hall n Hn) as (a & Ha & Hurl).
    destruct (proj1 (Forall_forall _ _) Hok a Ha) as (data & Hd & _).
    exists data. by rewrite <- Hurl.
Qed.

Lemma token_unset_publishes_nothing_witness :
  let r := main Demo.base (init Demo.disk) in
  w_net r.1 = [] ∧ r.2 = Ret tt ∧ exit_status r.2 = 0.
Proof.
  pose proof (token_unset_publishes_nothing Demo.base Demo.disk eq_refl)
    as [Hnet Hrun].
  destruct (Hrun "1.2.0"%string Demo.packaged Demo.out_dir) as (Hret & Hexit & _).
  - vm_compute. reflexivity.
  - exact (conj Hnet (conj Hret Hexit)).
Defined.

(** C3.  Whatever fails while publishing is caught inside
    [createGitHubRelease]: the function always returns normally, a failure
    of its [try] block is reported on the error stream (with the credential
    hint exactly when the error carries status 401), nothing in it ends the
    process, and a run whose packaging succeeded exits with status 0. *)
Theorem publishing_failures_are_contained (E : env) (m : fsmap)
    (version : string) (files : list artifact) (outputDir : path) :
  (package E (init m)).2 = Ret (version, files, outputDir) →
  exit_status (main E (init m)).2 = 0 ∧
  ∀ w,
    (createGitHubRelease E version files outputDir w).2 = Ret tt ∧
    (∀ h, (publish E version files outputDir w).2 ≠ Halt h) ∧
    (∀ w' e,
       token_missing E = false →
       publish E version files outputDir w = (w', Throw e) →
       createGitHubRelease E version files outputDir w =
       (World (w_fs w')
          (w_log w' ++ ErrReleaseFailed (message e)
             :: (if decide (status e = Some 401) then [ErrTokenHint] else []))
          (w_net w') (w_zips w'), Ret tt)).
Proof.
  intros Hp. split.
  - rewrite main_eq. destruct (package E (init m)) as [w o]. simpl in Hp.
    by subst o.
  - intros w. split_and!.
    + apply createGitHubRelease_returns.
    + intros h Hh.
      destruct (publish E version files outputDir w) as [w' o] eqn:Hpub.
      simpl in Hh. subst o.
      destruct (confined_publish _ _ _ _ _ _ _ Hpub) as (_ & _ & Hno & _).
      by destruct (Hno h).
    + intros w' e Htok Hpub. unfold createGitHubRelease, try_catch.
      rewrite Htok, Hpub. apply publish_failed_eq.
Qed.

Lemma publishing_failures_are_contained_witness :
  exit_status (main Demo.unauthorized (init Demo.disk)).2 = 0.
Proof.
  apply (publishing_failures_are_contained Demo.unauthorized Demo.disk
           "1.2.0" Demo.packaged Demo.out_dir).
  vm_compute. reflexivity.
Defined.

(** The run against the refusing remote: one request, then the two lines
    of the [catch] block. *)
Example unauthorized_run :
  let r := main Demo.unauthorized (init Demo.disk) in
  w_net r.1 = [GetReleaseByTag "acme" "tool" "v1.2.0"] ∧
  drop 15 (w_log r.1) = [ErrReleaseFailed "Bad credentials"; ErrTokenHint] ∧
  r.2 = Ret tt.
Proof. vm_compute. done. Qed.

(** What a run does when the source root has no folder: by the stage that
    stops it, the process exits with status 1, and the disk is the one the
    first stage left. *)
Lemma main_without_folders (E : env) (m : fsmap) :
  (∀ n, m !! path_join filesSrc n ≠ Some Dir) →
  ∃ w1 o1 l,
    prepare_output E (init m) = (w1, o1) ∧
    main E (init m) =
      (World (w_fs w1) (w_log w1 ++ [l]) [] [], Halt (ExitCode 1)) ∧
    (∀ version outputDir,
       o1 = Ret (version, outputDir) → fs_lookup m filesSrc = Some Dir →
       l = MsgNoFolders).
Proof.
  intros Hno. rewrite main_eq, package_eq.
  destruct (prepare_output E (init m)) as [w1 o1] eqn:H1.
  pose proof H1 as H1'.
  apply prepare_output_effect in H1' as (Hnet1 & Hz1 & Hhalt & Hfs1 & _).
  simpl in Hnet1, Hz1, Hfs1.
  destruct o1 as [[version outputDir]|e|h].
  - rewrite list_folders_eq.
    assert (folders_of (w_fs w1) = []) as ->.
    { apply folders_of_nil. intros n Hn. apply (Hno n).
      destruct (Hfs1 (path_join filesSrc n)) as [Heq | (_ & _ & _ & Hhd)];
        [congruence | done]. }
    assert (fs_lookup (w_fs w1) filesSrc = fs_lookup m filesSrc) as Hroot.
    { unfold fs_lookup, filesSrc.
      destruct (Hfs1 ["src"; "files"]%string) as [Heq | (_ & _ & _ & Hhd)];
        [done | done]. }
    unfold readdirSync. rewrite Hroot.
    destruct (fs_lookup m filesSrc) as [[data|]|] eqn:Hsrc.
    + exists w1, (Ret (version, outputDir)), (ErrFailed (message (fs_error "ENOTDIR"))).
      rewrite Hnet1, Hz1. by split_and!.
    + exists w1, (Ret (version, outputDir)), MsgNoFolders.
      rewrite Hnet1, Hz1. by split_and!.
    + exists w1, (Ret (version, outputDir)), (ErrFailed (message (fs_error "ENOENT"))).
      rewrite Hnet1, Hz1. by split_and!.
  - exists w1, (Throw e), (ErrFailed (message e)).
    rewrite Hnet1, Hz1. by split_and!.
  - by destruct (Hhalt h).
Qed.

(** C5.  For a version that is a plain entry name: with no folder directly
    under the source root the run ends the process with status 1, on the
    no-folders message once the version is read and the source root is
    listed; it starts no archive operation and makes no remote call, and the
    only thing it can add to the disk is the (empty) output directory with
    its parent: no file appears or changes. *)
Theorem no_subdirectories_is_fatal (E : env) (m : fsmap) :
  plain_version E m = true →
  (∀ n, m !! path_join filesSrc n ≠ Some Dir) →
  let r := main E (init m) in
  r.2 = Halt (ExitCode 1) ∧ exit_status r.2 = 1 ∧
  w_zips r.1 = [] ∧ w_net r.1 = [] ∧
  (∀ p, w_fs r.1 !! p = m !! p ∨
        (m !! p = None ∧ w_fs r.1 !! p = Some Dir ∧
         (length p ≤ 2)%nat ∧ head p = Some "dist"%string)) ∧
  (∀ version outputDir,
     (prepare_output E (init m)).2 = Ret (version, outputDir) →
     fs_lookup m filesSrc = Some Dir →
     last (w_log r.1) = Some MsgNoFolders).
Proof.
  intros _ Hno r. subst r.
  destruct (main_without_folders E m Hno) as (w1 & o1 & l & H1 & -> & Hl).
  simpl. split_and!; [done.. | |].
  - by apply prepare_output_effect in H1 as (_ & _ & _ & Hfs1 & _).
  - intros version outputDir Ho Hsrc. rewrite H1 in Ho. simpl in Ho.
    rewrite (Hl _ _ Ho Hsrc). apply last_snoc.
Qed.

Lemma no_subdirectories_is_fatal_witness :
  let r := main Demo.base (init Demo.empty_src) in
  r.2 = Halt (ExitCode 1) ∧ exit_status r.2 = 1 ∧
  w_zips r.1 = [] ∧ w_net r.1 = [] ∧
  w_fs r.1 = <[ Demo.out_dir := Dir ]> (<[ outputDist := Dir ]> Demo.empty_src).
Proof.
  destruct (no_subdirectories_is_fatal Demo.base Demo.empty_src)
    as (H1 & H2 & H3 & H4 & _).
  - vm_compute. reflexivity.
  - intros n. unfold path_join, filesSrc. simpl.
    unfold Demo.empty_src. rewrite !lookup_insert_ne by done.
    by rewrite lookup_empty.
  - split_and!; [exact H1 | exact H2 | exact H3 | exact H4 |].
    vm_compute. reflexivity.
Defined.

(** C9.  For a version that is a plain entry name, entries of the source
    root that are not directories play no part: every archive operation of a
    run reads a directory of the source root, every manifest entry is named
    after one, and a source root that holds plain files only ends the run
    like an empty one, with the no-folders message and exit status 1. *)
Theorem plain_files_are_ignored (E : env) (m : fsmap) :
  plain_version E m = true →
  let r := main E (init m) in
  (∀ src out evs, (src, out, evs) ∈ w_zips r.1 →
     ∃ n, src = path_join filesSrc n ∧ m !! src = Some Dir) ∧
  (∀ version files outputDir,
     (package E (init m)).2 = Ret (version, files, outputDir) →
     ∀ a, a ∈ files →
       ∃ n, url a = n +:+ ".zip" ∧ m !! path_join filesSrc n = Some Dir) ∧
  ((∀ n nd, m !! path_join filesSrc n = Some nd → ∃ data, nd = File data) →
   r.2 = Halt (ExitCode 1) ∧ w_zips r.1 = [] ∧
   ∀ version outputDir,
     (prepare_output E (init m)).2 = Ret (version, outputDir) →
     fs_lookup m filesSrc = Some Dir →
     last (w_log r.1) = Some MsgNoFolders).
Proof.
  intros _ r. subst r. split_and!.
  - rewrite main_eq. destruct (package E (init m)) as [w o] eqn:Hp.
    apply package_traces in Hp as (_ & ops & Hops & Hall). simpl in Hops.
    assert (∀ src out evs, (src, out, evs) ∈ w_zips w →
              ∃ n, src = path_join filesSrc n ∧ m !! src = Some Dir) as Hw.
    { intros src out evs Hin. rewrite Hops in Hin.
      by destruct (proj1 (Forall_forall _ _) Hall _ Hin) as [Hdir _]. }
    destruct o as [[[version files] outputDir]|e|h]; [| done..].
    intros src out evs Hin. apply (Hw src out evs).
    destruct (createGitHubRelease E version files outputDir w) as [w' o'] eqn:Hc.
    apply confined_createGitHubRelease in Hc as (_ & Hz & _).
    simpl in Hin. by rewrite <- Hz.
  - intros version files outputDir Ho a Ha.
    destruct (package E (init m)) as [w o] eqn:Hp. simpl in Ho. subst o.
    apply package_disk in Hp as (_ & _ & _ & Hnames & _).
    by apply Hnames.
  - intros Hplain.
    assert (∀ n, m !! path_join filesSrc n ≠ Some Dir) as Hno.
    { intros n Hn. by destruct (Hplain n Dir Hn). }
    destruct (main_without_folders E m Hno) as (w1 & o1 & l & H1 & -> & Hl).
    simpl. split_and!; [done.. |].
    intros version outputDir Ho Hsrc. rewrite H1 in Ho. simpl in Ho.
    rewrite (Hl _ _ Ho Hsrc). apply last_snoc.
Qed.

Lemma plain_files_are_ignored_witness :
  let r := main Demo.base (init Demo.only_files) in
  r.2 = Halt (ExitCode 1) ∧ w_zips r.1 = [] ∧
  last (w_log r.1) = Some MsgNoFolders.
Proof.
  destruct (plain_files_are_ignored Demo.base Demo.only_files)
    as (_ & _ & Hplain); [vm_compute; reflexivity |].
  destruct Hplain as (Hexit & Hzips & Hlog).
  - intros n nd. unfold path_join, filesSrc, Demo.only_files. simpl.
    rewrite !lookup_insert_ne by done.
    rewrite !lookup_insert, lookup_empty.
    repeat case_decide; intros [= <-]; eauto.
  - split_and!; [exact Hexit | exact Hzips |].
    apply (Hlog "1.2.0"%string Demo.out_dir); vm_compute; reflexivity.
Defined.

(** C10.  For a version that is a plain entry name, the output directory
    [dist/<version>] is made before the source root is listed: once the
    first stage has returned it exists, and a run that then stops on the
    no-folders error leaves it on disk with nothing put into it; the
    directory the run created (it was absent, on a well-formed disk) is an
    empty directory. *)
Theorem output_directory_precedes_listing (E : env) (m : fsmap)
    (version : string) (outputDir : path) :
  (prepare_output E (init m)).2 = Ret (version, outputDir) →
  plain_name version = true →
  fs_lookup m filesSrc = Some Dir →
  (∀ n, m !! path_join filesSrc n ≠ Some Dir) →
  let listed := (prepare_output E (init m)).1 in
  let r := main E (init m) in
  outputDir = path_join outputDist version ∧
  existsSync (w_fs listed) outputDir = true ∧
  r = (World (w_fs listed) (w_log listed ++ [MsgNoFolders]) [] [],
       Halt (ExitCode 1)) ∧
  existsSync (w_fs r.1) outputDir = true ∧
  (∀ n, w_fs r.1 !! path_join outputDir n = m !! path_join outputDir n) ∧
  (existsSync m outputDir = false → fs_wf m →
   w_fs r.1 !! outputDir = Some Dir ∧
   readdirSync (w_fs r.1) outputDir = inr []).
Proof.
  intros Hprep _ Hsrc Hno listed r. subst listed r.
  destruct (main_without_folders E m Hno) as (w1 & o1 & l & H1 & -> & Hl).
  rewrite H1 in Hprep |- *. simpl in Hprep. subst o1.
  rewrite (Hl _ _ eq_refl Hsrc). simpl.
  apply prepare_output_effect in H1 as (_ & _ & _ & Hfs1 & Hret).
  destruct (Hret _ _ eq_refl) as (Hod & Hex & Hnew). simpl in Hnew, Hfs1.
  split_and!; [done.. | |].
  { intros n. destruct (Hfs1 (path_join outputDir n))
      as [Heq | (_ & _ & Hlen & _)]; [done |].
    subst outputDir. unfold path_join, outputDist in Hlen. simpl in Hlen. lia. }
  intros Habsent Hwf. specialize (Hnew Habsent). split; [done |].
  unfold readdirSync. subst outputDir. rewrite fs_lookup_join, Hnew.
  f_equal. destruct (children (w_fs w1) (path_join outputDist version))
    as [|de l'] eqn:Hch; [done |].
  assert (de ∈ children (w_fs w1) (path_join outputDist version)) as Hin
    by (rewrite Hch; by left).
  apply elem_of_children in Hin as (n & Hn & _).
  destruct (Hfs1 (path_join (path_join outputDist version) (name de)))
    as [Heq | (_ & _ & Hlen & _)].
  - rewrite Hn in Heq. symmetry in Heq. apply Hwf in Heq.
    rewrite removelast_join in Heq.
    unfold existsSync in Habsent. by rewrite Heq in Habsent.
  - unfold path_join, outputDist in Hlen. simpl in Hlen. lia.
Qed.

Lemma output_directory_precedes_listing_witness :
  let r := main Demo.base (init Demo.empty_src) in
  existsSync (w_fs r.1) Demo.out_dir = true ∧ r.2 = Halt (ExitCode 1).
Proof.
  destruct (output_directory_precedes_listing Demo.base Demo.empty_src
              "1.2.0" Demo.out_dir) as (_ & _ & Hr & Hex & _ & _).
  - vm_compute. reflexivity.
  - reflexivity.
  - vm_compute. reflexivity.
  - intros n. unfold path_join, filesSrc, Demo.empty_src. simpl.
    rewrite !lookup_insert_ne by done. by rewrite lookup_empty.
  - split; [exact Hex |]. by rewrite Hr.
Defined.

(** ** Settling the promise of [zipFolder] *)

Lemma settle_passive (pre evs : list stream_event) :
  Forall passive pre → settle (pre ++ evs) = settle evs.
Proof.
  induction 1 as [|ev pre [-> | [e ->]] _ IH]; simpl; done.
Qed.

Lemma settle_split (evs : list stream_event) :
  settle evs ≠ Pending →
  ∃ pre ev post, evs = pre ++ ev :: post ∧ Forall passive pre ∧
                 settle evs = settle [ev] ∧ settle [ev] ≠ Pending.
Proof.
  induction evs as [|ev evs IH]; [done |]. intros Hs.
  destruct ev as [| |e|e|e];
    try (eexists [], _, evs; split_and!;
         [reflexivity | constructor | done | done]).
  - simpl in Hs. destruct (IH Hs) as (pre & ev & post & -> & Hpre & Heq & Hne).
    exists (OutputFinish :: pre), ev, post.
    split_and!; [done | | done | done]. constructor; [by left | done].
  - simpl in Hs. destruct (IH Hs) as (pre & ev & post & -> & Hpre & Heq & Hne).
    exists (ArchiveWarning e :: pre), ev, post.
    split_and!; [done | | done | done]. constructor; [right; eauto | done].
Qed.

Lemma settle_Resolved (evs : list stream_event) :
  settle evs = Resolved ↔
  ∃ pre post, evs = pre ++ OutputClose :: post ∧ Forall passive pre.
Proof.
  split.
  - intros Hs.
    destruct (settle_split evs) as (pre & ev & post & -> & Hpre & Heq & _);
      [by rewrite Hs |].
    rewrite Hs in Heq. exists pre, post. split; [| done].
    by destruct ev.
  - intros (pre & post & -> & Hpre). by rewrite settle_passive.
Qed.

Section Claims.

Variable E : env.

(** The lookup by tag, and what follows from its answer. *)
Lemma find_or_create_release_cases (owner repo version : string) (w : world) :
  let get := GetReleaseByTag owner repo ("v" +:+ version) in
  let create := CreateRelease owner repo ("v" +:+ version) version
                  ("Release version " +:+ version) true false in
  let r := find_or_create_release E owner repo version w in
  match octokit E (w_net w) get with
  | inr release => w_net r.1 = w_net w ++ [get] ∧ r.2 = Ret release
  | inl e =>
      if decide (status e = Some 404) then
        w_net r.1 = w_net w ++ [get; create] ∧
        r.2 = match octokit E (w_net w ++ [get]) create with
              | inl e' => Throw e'
              | inr release => Ret release
              end
      else w_net r.1 = w_net w ++ [get] ∧ r.2 = Throw e
  end.
Proof.
  cbv zeta. unfold find_or_create_release, try_catch, bind, call, log, ret, throw.
  simpl. destruct (octokit E (w_net w) _) as [e|release]; simpl; [| done].
  case_decide; simpl; [| done].
  destruct (octokit E (w_net w ++ _) _) as [e'|release]; simpl;
    by rewrite <- app_assoc.
Qed.

(** With the release found, the rest of the publisher only uploads, and
    to that release. *)
Lemma publish_existing (version : string) (files : list artifact)
    (outputDir : path) (owner repo : string) (release : release) (w : world) :
  (getGitHubInfo E w).2 = Ret (owner, repo) →
  octokit E (w_net w) (GetReleaseByTag owner repo ("v" +:+ version)) = inr release →
  ∃ uploads,
    w_net (publish E version files outputDir w).1 =
      w_net w ++ GetReleaseByTag owner repo ("v" +:+ version) :: uploads ∧
    Forall (is_upload owner repo (id release)) uploads.
Proof.
  intros Hinfo Hget. unfold publish. unfold bind at 1.
  destruct (getGitHubInfo E w) as [w0 o0] eqn:Hg. simpl in Hinfo. subst o0.
  assert (w0 = w) as ->.
  { unfold getGitHubInfo, bind, lift, throw, ret in Hg.
    destruct (git_remote_url E) as [e|remoteUrl]; [by simplify_eq |].
    destruct (match_github E remoteUrl) as [[o r]|]; by simplify_eq. }
  unfold bind at 1. simpl. unfold bind at 1.
  match goal with
  | |- context [find_or_create_release E owner repo version ?w0] =>
      pose proof (find_or_create_release_cases owner repo version w0) as Hc;
      destruct (find_or_create_release E owner repo version w0) as [w1 o1]
  end.
  simpl in Hc. rewrite Hget in Hc. destruct Hc as [Hnet1 ->].
  match goal with
  | |- context [bind ?c ?f w1] =>
      assert (confined (is_upload owner repo (id release)) (bind c f)) as Hrest;
      [| destruct (bind c f w1) as [w2 o2] eqn:Hb]
  end.
  { apply confined_bind; [apply confined_log |]. intros _.
    apply confined_bind; [apply confined_upload_files |]. intros _.
    apply confined_bind; [apply confined_upload_info |]. intros _.
    apply confined_log. }
  destruct (Hrest _ _ _ Hb) as (_ & _ & _ & uploads & Hnet2 & Hup).
  exists uploads. split; [| done]. simpl.
  by rewrite Hnet2, Hnet1, <- app_assoc.
Qed.

End Claims.

(** C4.  The publisher first asks for the release tagged [v<version>].
    Found: that release is used and nothing is created.  Refused with 404:
    a draft release with that tag is created, and its answer decides.  Any
    other failure of the lookup is thrown on.  And when the release was
    found, every further remote call of [createGitHubRelease] is an upload
    to that release's identifier. *)
Theorem release_is_fetched_or_created (E : env) (version : string)
    (files : list artifact) (outputDir : path) (owner repo : string) (w : world) :
  let get := GetReleaseByTag owner repo ("v" +:+ version) in
  let create := CreateRelease owner repo ("v" +:+ version) version
                  ("Release version " +:+ version) true false in
  let r := find_or_create_release E owner repo version w in
  match octokit E (w_net w) get with
  | inr release =>
      w_net r.1 = w_net w ++ [get] ∧ r.2 = Ret release ∧
      (token_missing E = false →
       (getGitHubInfo E w).2 = Ret (owner, repo) →
       ∃ uploads,
         w_net (createGitHubRelease E version files outputDir w).1 =
           w_net w ++ get :: uploads ∧
         Forall (is_upload owner repo (id release)) uploads)
  | inl e =>
      if decide (status e = Some 404) then
        w_net r.1 = w_net w ++ [get; create] ∧
        r.2 = match octokit E (w_net w ++ [get]) create with
              | inl e' => Throw e'
              | inr release => Ret release
              end
      else w_net r.1 = w_net w ++ [get] ∧ r.2 = Throw e
  end.
Proof.
  cbv zeta.
  pose proof (find_or_create_release_cases E owner repo version w) as Hc.
  cbv zeta in Hc.
  destruct (octokit E (w_net w) _) as [e|release] eqn:Hget; [done |].
  destruct Hc as [Hnet Hret]. split_and!; [done.. |].
  intros Htok Hinfo.
  destruct (publish_existing E version files outputDir owner repo release w
              Hinfo Hget) as (uploads & Hup & Hall).
  exists uploads. split; [| done].
  unfold createGitHubRelease, try_catch. rewrite Htok.
  destruct (publish E version files outputDir w) as [w' [[]|e|h]];
    [done | | done].
  by rewrite publish_failed_eq.
Qed.

Lemma release_is_fetched_or_created_witness :
  ∃ uploads,
    w_net (createGitHubRelease Demo.online "1.2.0" Demo.packaged Demo.out_dir
             (package Demo.online (init Demo.disk)).1).1 =
      GetReleaseByTag "acme" "tool" "v1.2.0" :: uploads ∧
    Forall (is_upload "acme" "tool" 7) uploads.
Proof.
  pose proof (release_is_fetched_or_created Demo.online "1.2.0" Demo.packaged
                Demo.out_dir "acme" "tool"
                (package Demo.online (init Demo.disk)).1) as H.
  cbv zeta in H.
  change (octokit Demo.online _ _) with (@inr error release (Release 7 "https://example/r/7")) in H.
  destruct H as (_ & _ & H).
  apply H; vm_compute; reflexivity.
Defined.

(** The two other answers of the lookup, run on the packaged project. *)
Example fresh_release_is_created :
  w_net (main Demo.fresh (init Demo.disk)).1 =
  [GetReleaseByTag "acme" "tool" "v1.2.0";
   CreateRelease "acme" "tool" "v1.2.0" "1.2.0" "Release version 1.2.0" true false;
   UploadReleaseAsset "acme" "tool" 8 "core.zip" "zip of core";
   UploadReleaseAsset "acme" "tool" 8 "plugin-a.zip" "zip of plugin-a";
   UploadReleaseAsset "acme" "tool" 8 "info.json" "1.2.0"].
Proof. vm_compute. reflexivity. Qed.

Example existing_release_is_reused :
  w_net (main Demo.online (init Demo.disk)).1 =
  [GetReleaseByTag "acme" "tool" "v1.2.0";
   UploadReleaseAsset "acme" "tool" 7 "core.zip" "zip of core";
   UploadReleaseAsset "acme" "tool" 7 "plugin-a.zip" "zip of plugin-a";
   UploadReleaseAsset "acme" "tool" 7 "info.json" "1.2.0"].
Proof. vm_compute. reflexivity. Qed.

(** C6, as stated: not every stream-level error rejects the operation.  An
    'error' of the output stream has no listener in [zipFolder]; the promise
    is not rejected. *)
Lemma output_error_is_not_rejected :
  ¬ (∀ (E : env) (src out : path) (w : world) pre ev post e,
       events (archiver E (w_fs w) src out) = pre ++ ev :: post →
       Forall passive pre →
       stream_error ev = Some e →
       (zipFolder E src out w).2 = Throw e).
Proof.
  intros H.
  specialize (H Demo.output_fails ["src"; "files"; "core"]%string
                (path_join Demo.out_dir "core.zip") (init Demo.disk)
                [] (OutputError (fs_error "ENOSPC")) [] (fs_error "ENOSPC")
                eq_refl ltac:(constructor) eq_refl).
  vm_compute in H. discriminate H.
Qed.

(** C6, amended.  [zipFolder] completes exactly when the output stream has
    closed, nothing but passing events before; an 'error' of the archive
    stream arriving first rejects it; and in a run, the first stream-level
    error of any archive operation ends the process with status 1: that of
    the archive stream through the rejection, reported by [main]. *)
Theorem archive_completion_and_errors (E : env) (m : fsmap) :
  (∀ src out w,
     (zipFolder E src out w).2 = Ret tt ↔
     ∃ pre post,
       events (archiver E (w_fs w) src out) = pre ++ OutputClose :: post ∧
       Forall passive pre) ∧
  (∀ src out w pre e post,
     events (archiver E (w_fs w) src out) = pre ++ ArchiveError e :: post →
     Forall passive pre →
     (zipFolder E src out w).2 = Throw e) ∧
  (∀ src out evs pre ev post e,
     (src, out, evs) ∈ w_zips (main E (init m)).1 →
     evs = pre ++ ev :: post →
     Forall passive pre →
     stream_error ev = Some e →
     exit_status (main E (init m)).2 = 1 ∧
     (ev = ArchiveError e →
      (main E (init m)).2 = Halt (ExitCode 1) ∧
      last (w_log (main E (init m)).1) = Some (ErrFailed (message e)))).
Proof.
  split_and!.
  - intros src out w. rewrite <- settle_Resolved.
    destruct (zipFolder E src out w) as [w' o] eqn:Hz.
    apply zipFolder_effect in Hz as (_ & _ & _ & Hres & _).
    exact Hres.
  - intros src out w pre e post Hev Hpre.
    destruct (zipFolder E src out w) as [w' o] eqn:Hz.
    apply zipFolder_effect in Hz as (_ & _ & _ & _ & Hv).
    simpl in Hv. rewrite Hev in Hv. rewrite (settle_passive _ _ Hpre) in Hv.
    simpl in Hv. simpl. by destruct o as [?|?|?]; simplify_eq/=.
  - intros src out evs pre ev post e Hin -> Hpre Herr.
    rewrite main_eq in Hin |- *.
    destruct (package E (init m)) as [w o] eqn:Hp.
    apply package_traces in Hp as (_ & ops & Hops & Hall). simpl in Hops.
    assert ((src, out, pre ++ ev :: post) ∈ ops) as Hop.
    { destruct o as [[[version files] outputDir]|e0|h]; simpl in Hin;
        [| by rewrite Hops in Hin..].
      destruct (createGitHubRelease E version files outputDir w)
        as [w' o'] eqn:Hc.
      apply confined_createGitHubRelease in Hc as (_ & Hz & _).
      simpl in Hin. by rewrite Hz, Hops in Hin. }
    destruct (proj1 (Forall_forall _ _) Hall _ Hop) as [_ Hv].
    simpl in Hv. rewrite (settle_passive _ _ Hpre) in Hv.
    destruct ev as [| |e0|e0|e0]; simplify_eq/=.
    + destruct o as [?|?|?]; simplify_eq/=. by split.
    + destruct o as [[[version files] outputDir]|?|?]; simplify_eq/=.
      split; [done |]. intros _. split; [done |]. apply last_snoc.
Qed.

Lemma archive_completion_and_errors_witness :
  exit_status (main Demo.archive_fails (init Demo.disk)).2 = 1 ∧
  last (w_log (main Demo.archive_fails (init Demo.disk)).1) =
    Some (ErrFailed "EACCES").
Proof.
  destruct (archive_completion_and_errors Demo.archive_fails Demo.disk)
    as (_ & _ & Hrun).
  destruct (Hrun ["src"; "files"; "core"]%string
              (path_join Demo.out_dir "core.zip")
              [ArchiveWarning (fs_error "ENOENT"); ArchiveError (fs_error "EACCES")]
              [ArchiveWarning (fs_error "ENOENT")]
              (ArchiveError (fs_error "EACCES")) [] (fs_error "EACCES"))
    as [Hexit Harch].
  - vm_compute. by left.
  - reflexivity.
  - constructor; [right; eauto | constructor].
  - reflexivity.
  - split; [exact Hexit |]. by destruct (Harch eq_refl).
Defined.

(** The run whose output file cannot be written: the process ends with
    status 1 on the unhandled event, [main] reports nothing. *)
Example output_error_run :
  let r := main Demo.output_fails (init Demo.disk) in
  r.2 = Halt (UncaughtEvent (fs_error "ENOSPC")) ∧ exit_status r.2 = 1 ∧
  last (w_log r.1) = Some (MsgZipping "core").
Proof. vm_compute. done. Qed.

(** C7, as stated: an artifact missing from disk is not skipped with a log
    message.  The loop prints nothing for it. *)
Lemma missing_artifact_is_not_logged :
  ¬ (∀ (E : env) owner repo release_id outputDir (a : artifact) (w : world),
       existsSync (w_fs w) (path_join outputDir (url a)) = false →
       w_log (upload_files E owner repo release_id outputDir [a] w).1 ≠ w_log w).
Proof.
  intros H.
  apply (H Demo.online "acme" "tool" 7 Demo.out_dir
           (Artifact "core.zip" "sha" 11) (init Demo.disk))%string.
  - vm_compute. reflexivity.
  - vm_compute. reflexivity.
Qed.

(** C7, amended.  As long as the uploads are accepted, the loop uploads
    every artifact whose file is on disk, in order, under its name and to
    the release, and passes over every artifact whose file is missing
    without a call, without a line of output and without failing. *)
Theorem artifacts_on_disk_are_uploaded (E : env) (owner repo : string)
    (release_id : Z) (outputDir : path) (files : list artifact) (w : world) :
  (∀ history o r i n d,
     ∃ rel, octokit E history (UploadReleaseAsset o r i n d) = inr rel) →
  Forall (λ a, w_fs w !! path_join outputDir (url a) ≠ Some Dir) files →
  upload_files E owner repo release_id outputDir files w =
  (World (w_fs w)
     (w_log w ++ flat_map (upload_lines (w_fs w) outputDir) files)
     (w_net w ++ omap (upload_of owner repo release_id (w_fs w) outputDir) files)
     (w_zips w), Ret tt).
Proof.
  intros Hok. revert w. induction files as [|a rest IH]; intros w Hfiles.
  - simpl. unfold ret. rewrite !app_nil_r. by destruct w.
  - apply Forall_cons in Hfiles as [Ha Hrest].
    simpl. unfold bind at 1, file_exists. unfold upload_lines at 1, upload_of at 1.
    unfold existsSync. rewrite fs_lookup_join.
    destruct (w_fs w !! path_join outputDir (url a)) as [[data|]|] eqn:Hl;
      [| done |].
    + unfold bind at 1. unfold bind at 1, log at 1. simpl.
      unfold bind at 1, read_fs, lift, readFileSync. simpl.
      rewrite fs_lookup_join, Hl. unfold bind at 1, call. simpl.
      destruct (Hok (w_net w) owner repo release_id (url a) data) as [rel ->].
      unfold log at 1. simpl. rewrite IH by done. simpl.
      by rewrite <- !app_assoc.
    + unfold bind at 1, ret at 1. by rewrite IH.
Qed.

Lemma artifacts_on_disk_are_uploaded_witness :
  let w := (package Demo.online (init Demo.disk)).1 in
  let files := Demo.packaged ++ [Artifact "docs.zip" "sha" 3]%string in
  upload_files Demo.online "acme" "tool" 7 Demo.out_dir files w =
  (World (w_fs w)
     (w_log w ++ [MsgUploading "core.zip"; MsgUploaded "core.zip";
                  MsgUploading "plugin-a.zip"; MsgUploaded "plugin-a.zip"])
     [UploadReleaseAsset "acme" "tool" 7 "core.zip" "zip of core";
      UploadReleaseAsset "acme" "tool" 7 "plugin-a.zip" "zip of plugin-a"]
     (w_zips w), Ret tt).
Proof.
  cbv zeta.
  rewrite (artifacts_on_disk_are_uploaded Demo.online "acme" "tool" 7
             Demo.out_dir).
  - vm_compute. reflexivity.
  - intros. by eexists.
  - repeat constructor; vm_compute; discriminate.
Defined.

(** ** Further properties of the script *)

Section Endings.
Variable E : env.

Lemma main_disk_and_archives (w : world) :
  w_fs (main E w).1 = w_fs (package E w).1 ∧
  w_zips (main E w).1 = w_zips (package E w).1.
Proof.
  rewrite main_eq.
  destruct (package E w) as [w1 [[[version files] outputDir]|e|h]]; [| done..].
  destruct (createGitHubRelease E version files outputDir w1) as [w2 o] eqn:Hc.
  by apply confined_createGitHubRelease in Hc as (Hfs & Hz & _).
Qed.

Lemma halts_only_bind {A B} (H : halt → Prop) (c : M A) (f : A → M B) :
  halts_only H c → (∀ a, halts_only H (f a)) → halts_only H (bind c f).
Proof.
  intros Hc Hf w w' h Hb. unfold bind in Hb.
  destruct (c w) as [w1 [a|e|h1]] eqn:Hcw.
  - by eapply Hf.
  - done.
  - simplify_eq. by eapply Hc.
Qed.

Lemma halts_only_quiet {A} (H : halt → Prop) (c : M A) :
  (∀ w w' h, c w ≠ (w', Halt h)) → halts_only H c.
Proof. intros Hc w w' h Hcw. by destruct (Hc w w' h). Qed.

Lemma halts_only_zipFolder (src out : path) :
  halts_only (λ h, h = Stalled ∨ ∃ e, h = UncaughtEvent e) (zipFolder E src out).
Proof.
  intros w w' h Hz. apply zipFolder_effect in Hz as (_ & _ & _ & Hres & Hv).
  simpl in Hv. unfold verdict in Hv.
  destruct (settle _); simplify_eq; eauto.
  discriminate (proj2 Hres eq_refl).
Qed.

Lemma halts_only_zip_folders (outputDir : path) (folders : list dirent) :
  ∀ files,
  halts_only (λ h, h = Stalled ∨ ∃ e, h = UncaughtEvent e)
    (zip_folders E outputDir folders files).
Proof.
  induction folders as [|folder rest IH]; intros files.
  - by intros w w' h [= _ ?].
  - simpl. apply halts_only_bind; [by intros w w' h [= _ ?] |]. intros _.
    apply halts_only_bind; [apply halts_only_zipFolder |]. intros _.
    apply halts_only_bind.
    { apply halts_only_quiet. intros w w' h.
      unfold calculateSHA512, bind, read_fs, lift, ret.
      by destruct (readFileSync _ _). }
    intros sha. apply halts_only_bind.
    { apply halts_only_quiet. intros w w' h.
      unfold getFileSize, read_fs, lift. by destruct (statSync_size _ _ _). }
    intros sz. apply halts_only_bind; [by intros w w' h [= _ ?] |].
    intros _. apply IH.
Qed.

Lemma halts_only_package :
  halts_only (λ h, h = ExitCode 1 ∨ h = Stalled ∨ ∃ e, h = UncaughtEvent e)
    (package E).
Proof.
  intros w w' h. rewrite package_eq.
  destruct (prepare_output E w) as [w1 o1] eqn:H1.
  apply prepare_output_effect in H1 as (_ & _ & Hno & _).
  destruct o1 as [[version outputDir]|e|h1]; [| done | by destruct (Hno h1)].
  rewrite list_folders_eq.
  destruct (readdirSync (w_fs w1) filesSrc) as [e|items]; [done |].
  destruct (folders_of (w_fs w1)) as [|f fs] eqn:Hf.
  { intros [= _ <-]. by left. }
  cbv beta iota zeta.
  match goal with
  | |- context [zip_folders E outputDir ?l [] ?w0] =>
      destruct (zip_folders E outputDir l [] w0) as [w3 o3] eqn:H3
  end.
  destruct o3 as [files|e|h3]; [| done |].
  - rewrite write_info_eq. by destruct (fs_write _ _ _).
  - intros [= _ <-]. right. by eapply halts_only_zip_folders.
Qed.

Lemma main_returns (w : world) :
  (main E w).2 = Ret tt ↔ ∃ r, (package E w).2 = Ret r.
Proof.
  rewrite main_eq.
  destruct (package E w) as [w1 [[[version files] outputDir]|e|h]]; simpl.
  - split; [eauto | done].
  - split; [done | by intros [r ?]].
  - split; [done | by intros [r ?]].
Qed.

(** X1.  [main] never lets an error escape: an error thrown while packaging
    is caught, reported on the error stream as the last line of the run, and
    turned into [process.exit(1)] with nothing done after it; the run returns
    normally exactly when the packaging stage succeeded; and the only status
    it passes to [process.exit] is 1. *)
Theorem main_ends_cleanly (w : world) :
  (∀ e, (main E w).2 ≠ Throw e) ∧
  (∀ e, (package E w).2 = Throw e →
     (main E w).2 = Halt (ExitCode 1) ∧
     w_log (main E w).1 = w_log (package E w).1 ++ [ErrFailed (message e)] ∧
     w_fs (main E w).1 = w_fs (package E w).1 ∧
     w_net (main E w).1 = w_net (package E w).1 ∧
     w_zips (main E w).1 = w_zips (package E w).1) ∧
  ((main E w).2 = Ret tt ↔ ∃ r, (package E w).2 = Ret r) ∧
  (∀ c, (main E w).2 = Halt (ExitCode c) → c = 1).
Proof.
  rewrite main_eq. destruct (package E w) as [w1 o] eqn:Hp.
  destruct o as [[[version files] outputDir]|e|h]; simpl.
  - split_and!; [done | done | | done]. split; [eauto | done].
  - split_and!; [done | by intros e' [= <-] | | by intros c [= <-]].
    split; [done | by intros [r ?]].
  - split_and!; [done | done | |].
    + split; [done | by intros [r ?]].
    + intros c [= ->].
      destruct (halts_only_package _ _ _ Hp) as [[= ->] | [? | [e ?]]]; done.
Qed.

(** X2.  Remote calls are made only by a run whose packaging stage succeeded,
    with the credential set. *)
Theorem publishing_follows_packaging (m : fsmap) :
  w_net (main E (init m)).1 ≠ [] →
  token_missing E = false ∧ ∃ r, (package E (init m)).2 = Ret r.
Proof.
  rewrite main_eq. destruct (package E (init m)) as [w1 o] eqn:Hp.
  pose proof (package_traces _ _ _ _ Hp) as [Hnet _]. simpl in Hnet.
  destruct o as [[[version files] outputDir]|e|h]; simpl; [| done..].
  unfold createGitHubRelease. destruct (token_missing E); simpl; [done |].
  eauto.
Qed.

End Endings.

Lemma main_ends_cleanly_witness :
  (main Demo.base (init ∅)).2 = Halt (ExitCode 1) ∧
  w_log (main Demo.base (init ∅)).1 = [ErrFailed "ENOENT"].
Proof.
  destruct (main_ends_cleanly Demo.base (init ∅)) as (_ & Hcaught & _).
  destruct (Hcaught (fs_error "ENOENT")) as (Hexit & Hlog & _).
  - vm_compute. reflexivity.
  - split; [exact Hexit |]. rewrite Hlog. vm_compute. reflexivity.
Defined.

Lemma publishing_follows_packaging_witness :
  token_missing Demo.online = false ∧
  ∃ r, (package Demo.online (init Demo.disk)).2 = Ret r.
Proof.
  apply (publishing_follows_packaging Demo.online Demo.disk).
  vm_compute. discriminate.
Defined.

Section EarlyExits.
Variable E : env.

(** X3.  A version that cannot be read, or that is not a string, ends the run
    with status 1 before anything is done: the disk is untouched, nothing is
    archived, no remote call is made. *)
Theorem unresolved_version_stops_the_run (m : fsmap) :
  (∀ e, (getVersion E (init m)).2 = Throw e →
     main E (init m) =
     (World m [ErrFailed (message e)] [] [], Halt (ExitCode 1))) ∧
  (∀ shown, (getVersion E (init m)).2 = Ret (VOther shown) →
     main E (init m) =
     (World m [MsgStart shown; ErrFailed "ERR_INVALID_ARG_TYPE"] [] [],
      Halt (ExitCode 1))).
Proof.
  rewrite main_eq, package_eq. unfold prepare_output. unfold bind at 1.
  unfold getVersion, bind, read_fs, lift. simpl.
  destruct (readFileSync m ["package.json"%string]) as [e|json]; simpl.
  { split; [by intros ? [= <-] | done]. }
  destruct (parse_version E json) as [e|[version|other]]; simpl.
  - split; [by intros ? [= <-] | done].
  - split; done.
  - split; [done | by intros ? [= <-]].
Qed.

(** X4.  An empty credential counts as none: no remote call is made, and a run
    whose packaging succeeded says so and ends normally. *)
Theorem empty_token_is_no_token (m : fsmap) :
  GH_TOKEN E = Some ""%string →
  w_net (main E (init m)).1 = [] ∧
  ∀ r, (package E (init m)).2 = Ret r →
       (main E (init m)).2 = Ret tt ∧
       last (w_log (main E (init m)).1) = Some MsgTokenMissing.
Proof.
  intros Htok. rewrite main_eq.
  destruct (package E (init m)) as [w o] eqn:Hp.
  pose proof (package_traces _ _ _ _ Hp) as [Hnet _]. simpl in Hnet.
  unfold createGitHubRelease, token_missing. rewrite Htok.
  destruct o as [[[version files] outputDir]|e|h]; simpl.
  - split; [done |]. intros _ _. split; [done | apply last_snoc].
  - split; [done | by intros r [=]].
  - split; [done | by intros r [=]].
Qed.

(** X5.  When the repository cannot be told from the git remote (the command
    fails, or its output does not match the pattern), the publisher makes no
    remote call: it reports the error and returns. *)
Theorem unresolved_repository_is_reported (version : string)
    (files : list artifact) (outputDir : path) (w : world) (e : error) :
  token_missing E = false →
  (git_remote_url E = inl e ∨
   ∃ remoteUrl, git_remote_url E = inr remoteUrl ∧
                match_github E remoteUrl = None ∧
                e = Error_ "无法解析GitHub仓库URL" None) →
  createGitHubRelease E version files outputDir w =
  (World (w_fs w)
     (w_log w ++ ErrReleaseFailed (message e)
        :: (if decide (status e = Some 401) then [ErrTokenHint] else []))
     (w_net w) (w_zips w), Ret tt).
Proof.
  intros Htok Hgit. unfold createGitHubRelease, try_catch. rewrite Htok.
  assert (publish E version files outputDir w = (w, Throw e)) as ->.
  { unfold publish. unfold bind at 1. unfold getGitHubInfo, bind, lift, throw.
    destruct Hgit as [-> | (remoteUrl & -> & Hm & ->)]; [done |].
    by rewrite Hm. }
  apply publish_failed_eq.
Qed.

End EarlyExits.

Lemma unresolved_version_stops_the_run_witness :
  main Demo.base (init ∅) =
  (World ∅ [ErrFailed "ENOENT"] [] [], Halt (ExitCode 1)).
Proof.
  destruct (unresolved_version_stops_the_run Demo.base ∅) as [H _].
  apply (H (fs_error "ENOENT")). reflexivity.
Defined.

Lemma empty_token_is_no_token_witness :
  w_net (main empty_token (init Demo.disk)).1 = [] ∧
  (main empty_token (init Demo.disk)).2 = Ret tt.
Proof.
  destruct (empty_token_is_no_token empty_token Demo.disk eq_refl) as [Hnet H].
  destruct (H ("1.2.0"%string, Demo.packaged, Demo.out_dir)) as [Hret _].
  - vm_compute. reflexivity.
  - by split.
Defined.

Lemma unresolved_repository_is_reported_witness :
  w_net (main no_remote (init Demo.disk)).1 = [] ∧
  last (w_log (main no_remote (init Demo.disk)).1) =
    Some (ErrReleaseFailed "无法解析GitHub仓库URL").
Proof.
  rewrite main_eq.
  replace (package no_remote (init Demo.disk)) with
    ((package no_remote (init Demo.disk)).1,
     @Ret (string * list artifact * path) ("1.2.0"%string, Demo.packaged, Demo.out_dir))
    by (vm_compute; reflexivity).
  cbv beta iota.
  rewrite (unresolved_repository_is_reported no_remote "1.2.0" Demo.packaged
             Demo.out_dir _ (Error_ "无法解析GitHub仓库URL" None)).
  - split; vm_compute; reflexivity.
  - reflexivity.
  - right. by eexists.
Defined.

Section Order.
Variable E : env.

Lemma NoDup_zip_names (folders : list dirent) :
  NoDup (name <$> folders) → NoDup (zip_name <$> folders).
Proof.
  intros Hnd.
  replace (zip_name <$> folders) with ((λ n, n +:+ ".zip") <$> (name <$> folders))
    by (by rewrite <- list_fmap_compose).
  apply NoDup_fmap_2; [| done]. intros a b. apply string_app_inj_r.
Qed.

(** X6.  The manifest lists one entry per folder of the source root, in the
    order [readdirSync] returned them, each named [<folder>.zip], no name
    twice. *)
Theorem manifest_follows_the_listing (m : fsmap)
    (version : string) (files : list artifact) (outputDir : path) :
  (package E (init m)).2 = Ret (version, files, outputDir) →
  let listed := w_fs (prepare_output E (init m)).1 in
  ∃ items,
    readdirSync listed filesSrc = inr items ∧
    url <$> files =
      (λ item, name item +:+ ".zip") <$> List.filter isDirectory items ∧
    NoDup (url <$> files).
Proof.
  intros Hp listed. subst listed.
  destruct (package E (init m)) as [w o] eqn:Hpk. simpl in Hp. subst o.
  apply package_ret in Hpk as (w1 & w2 & w3 & folders & H1 & H2 & H3 & _).
  rewrite H1. simpl. rewrite list_folders_eq in H2.
  destruct (readdirSync (w_fs w1) filesSrc) as [e|items] eqn:Hrd;
    [discriminate H2 |].
  assert (items = children (w_fs w1) filesSrc) as ->.
  { unfold readdirSync in Hrd.
    destruct (fs_lookup (w_fs w1) filesSrc) as [[?|]|]; by simplify_eq. }
  fold (folders_of (w_fs w1)).
  assert (folders = folders_of (w_fs w1)) as ->.
  { destruct (folders_of (w_fs w1)); [done |]. by injection H2 as <- <-. }
  apply zip_folders_ret in H3 as (new & Hnew & Hurl & _);
    [| apply NoDup_folders_of].
  simpl in Hnew. subst new. exists (children (w_fs w1) filesSrc).
  split_and!; [done | done |].
  rewrite Hurl. apply NoDup_zip_names, NoDup_folders_of.
Qed.

Lemma zip_folders_in_order (outputDir : path) (folders : list dirent) :
  ∀ (files : list artifact) (w w' : world) (o : outcome (list artifact)),
  zip_folders E outputDir folders files w = (w', o) →
  ∃ ops, w_zips w' = w_zips w ++ ops ∧
    op_paths <$> ops = take (length ops) (folder_paths outputDir <$> folders) ∧
    Forall (λ op, settle op.2 = Resolved) (removelast ops) ∧
    (∀ files', o = Ret files' →
       length ops = length folders ∧
       Forall (λ op, settle op.2 = Resolved) ops).
Proof.
  induction folders as [|folder rest IH]; intros files w w' o H.
  - simpl in H. unfold ret in H. simplify_eq. exists [].
    rewrite app_nil_r. by split_and!.
  - simpl in H. unfold bind at 1 in H. simpl in H.
    match type of H with
    | bind ?c ?f ?w0 = _ =>
        destruct (c w0) as [w1 o1] eqn:Hz; set (k := f) in *
    end.
    pose proof Hz as Hz'.
    apply zipFolder_effect in Hz' as (_ & Hzips & _ & Hres & _).
    simpl in Hzips, Hres.
    set (op := (path_join filesSrc (name folder),
                path_join outputDir (name folder +:+ ".zip"),
                events (archiver E (w_fs w) (path_join filesSrc (name folder))
                          (path_join outputDir (name folder +:+ ".zip"))))) in *.
    assert (∀ o' : outcome (list artifact), (∀ files', o' ≠ Ret files') →
      ∃ ops, w_zips w1 = w_zips w ++ ops ∧
        op_paths <$> ops =
          take (length ops) (folder_paths outputDir <$> folder :: rest) ∧
        Forall (λ op, settle op.2 = Resolved) (removelast ops) ∧
        (∀ files', o' = Ret files' →
           length ops = length (folder :: rest) ∧
           Forall (λ op, settle op.2 = Resolved) ops)) as Hstop.
    { intros o' Ho'. exists [op]. split_and!; [done | done | by constructor |].
      intros files' ->. by destruct (Ho' files'). }
    destruct o1 as [[]|e|h].
    + assert (settle op.2 = Resolved) as Hsettle by by apply Hres.
      subst k. unfold bind at 1 in H. rewrite Hz in H.
      unfold bind at 1 in H.
      destruct (calculateSHA512 E _ w1) as [w2 [sha|e|h]] eqn:Hsha.
      * apply calculateSHA512_ret in Hsha as (-> & data & Hdata & ->).
        unfold bind at 1 in H.
        destruct (getFileSize E _ w1) as [w2 [sz|e|h]] eqn:Hsz.
        -- apply (getFileSize_ret _ _ _ _ _ _ Hdata) in Hsz as (-> & ->).
           unfold bind at 1 in H. simpl in H.
           apply IH in H as (ops & Hops & Hpaths & Hres' & Hret).
           simpl in Hops. exists (op :: ops). split_and!.
           ++ by rewrite Hops, Hzips, <- app_assoc.
           ++ rewrite !fmap_cons. cbn [length]. rewrite firstn_cons.
              by rewrite Hpaths.
           ++ destruct ops as [|op' ops']; [by constructor |].
              change (removelast (op :: op' :: ops')) with
                (op :: removelast (op' :: ops')).
              by constructor.
           ++ intros files' ->. destruct (Hret _ eq_refl) as [Hlen Hall].
              split; [simpl; by rewrite Hlen | by constructor].
        -- unfold getFileSize, read_fs, lift in Hsz. simplify_eq.
           by apply Hstop.
        -- unfold getFileSize, read_fs, lift in Hsz.
           destruct (statSync_size _ _ _); simplify_eq.
      * unfold calculateSHA512, bind, read_fs, lift in Hsha.
        destruct (readFileSync _ _); simplify_eq. by apply Hstop.
      * unfold calculateSHA512, bind, read_fs, lift in Hsha.
        destruct (readFileSync _ _); simplify_eq.
    + subst k. unfold bind at 1 in H. rewrite Hz in H. simplify_eq.
      by apply Hstop.
    + subst k. unfold bind at 1 in H. rewrite Hz in H. simplify_eq.
      by apply Hstop.
Qed.

(** X7.  The archive loop takes the folders in order, one operation per
    folder; an operation starts only when the one before it has resolved, and
    the run returns only when every folder has been archived. *)
Theorem archives_run_one_by_one (m : fsmap) (version : string)
    (outputDir : path) :
  (prepare_output E (init m)).2 = Ret (version, outputDir) →
  let folders := folders_of (w_fs (prepare_output E (init m)).1) in
  let ops := w_zips (main E (init m)).1 in
  op_paths <$> ops = take (length ops) (folder_paths outputDir <$> folders) ∧
  Forall (λ op, settle op.2 = Resolved) (removelast ops) ∧
  ((main E (init m)).2 = Ret tt →
   length ops = length folders ∧ Forall (λ op, settle op.2 = Resolved) ops).
Proof.
  intros Hprep folders ops. subst folders ops.
  rewrite (main_returns E (init m)).
  destruct (main_disk_and_archives E (init m)) as [_ ->].
  rewrite package_eq.
  destruct (prepare_output E (init m)) as [w1 o1] eqn:H1. simpl in Hprep.
  subst o1. pose proof H1 as H1'.
  apply prepare_output_effect in H1' as (_ & Hz1 & _). simpl in Hz1. simpl.
  rewrite list_folders_eq.
  destruct (readdirSync (w_fs w1) filesSrc) as [e|items].
  { simpl. rewrite Hz1. split_and!; [done | done |]. by intros [r [=]]. }
  destruct (folders_of (w_fs w1)) as [|f fs] eqn:Hf.
  { simpl. rewrite Hz1. split_and!; [done | done |]. by intros [r [=]]. }
  cbv beta iota zeta.
  match goal with
  | |- context [zip_folders E outputDir ?l [] ?w0] =>
      destruct (zip_folders E outputDir l [] w0) as [w3 o3] eqn:H3
  end.
  apply zip_folders_in_order in H3 as (ops & Hops & Hpaths & Hres & Hall).
  simpl in Hops. rewrite Hz1 in Hops. simpl in Hops.
  assert (∀ w4 : world, w_zips w4 = w_zips w3 →
    op_paths <$> w_zips w4 =
      take (length (w_zips w4)) (folder_paths outputDir <$> f :: fs) ∧
    Forall (λ op, settle op.2 = Resolved) (removelast (w_zips w4))) as Hany.
  { intros w4 ->. by rewrite Hops. }
  destruct o3 as [files|e|h].
  - rewrite write_info_eq. destruct (fs_write (w_fs w3) _ _) as [e|m'].
    + simpl. destruct (Hany w3 eq_refl). split_and!; [done.. |].
      by intros [r [=]].
    + simpl. destruct (Hany w3 eq_refl). split_and!; [done.. |].
      intros _. rewrite Hops. by apply (Hall files).
  - simpl. destruct (Hany w3 eq_refl). split_and!; [done.. |].
    by intros [r [=]].
  - simpl. destruct (Hany w3 eq_refl). split_and!; [done.. |].
    by intros [r [=]].
Qed.

End Order.

Lemma manifest_follows_the_listing_witness :
  url <$> Demo.packaged = ["core.zip"; "plugin-a.zip"]%string ∧
  ∃ items,
    readdirSync (w_fs (prepare_output Demo.base (init Demo.disk)).1) filesSrc
      = inr items ∧
    url <$> Demo.packaged =
      (λ item, name item +:+ ".zip") <$> List.filter isDirectory items.
Proof.
  split; [reflexivity |].
  destruct (manifest_follows_the_listing Demo.base Demo.disk "1.2.0"
              Demo.packaged Demo.out_dir) as (items & Hrd & Hurl & _).
  - vm_compute. reflexivity.
  - exists items. by split.
Defined.

Lemma archives_run_one_by_one_witness :
  op_paths <$> w_zips (main Demo.archive_fails (init Demo.disk)).1 =
  [(["src"; "files"; "core"], ["dist"; "1.2.0"; "core.zip"])]%string.
Proof.
  destruct (archives_run_one_by_one Demo.archive_fails Demo.disk "1.2.0"
              Demo.out_dir) as (Hpaths & _).
  - vm_compute. reflexivity.
  - rewrite Hpaths. vm_compute. reflexivity.
Defined.

Section Writes.
Variable E : env.

Lemma writes_only_bind {A B} (S : path → Prop) (c : M A) (f : A → M B) :
  writes_only S c → (∀ a, writes_only S (f a)) → writes_only S (bind c f).
Proof.
  intros Hc Hf w w' o H p. unfold bind in H.
  destruct (c w) as [w1 [a|e|h]] eqn:Hcw.
  - destruct (Hf a _ _ _ H p) as [Heq | Hnew]; [| by right].
    rewrite Heq. by eapply Hc.
  - simplify_eq. by eapply Hc.
  - simplify_eq. by eapply Hc.
Qed.

Lemma writes_only_none {A} (S : path → Prop) (c : M A) :
  (∀ w w' o, c w = (w', o) → w_fs w' = w_fs w) → writes_only S c.
Proof. intros Hc w w' o H p. left. by rewrite (Hc _ _ _ H). Qed.

Lemma writes_only_weaken {A} (S T : path → Prop) (c : M A) :
  (∀ p, S p → T p) → writes_only S c → writes_only T c.
Proof.
  intros HST Hc w w' o H p. destruct (Hc _ _ _ H p) as [? | [? ?]]; auto.
Qed.

Lemma writes_only_zipFolder (src out : path) :
  writes_only (λ p, p = out) (zipFolder E src out).
Proof.
  intros w w' o H p. unfold zipFolder in H.
  set (run := archiver E (w_fs w) src out) in *.
  assert (w_fs w' = match written run with
                    | Some data =>
                        match fs_write (w_fs w) out data with
                        | inr m' => m'
                        | inl _ => w_fs w
                        end
                    | None => w_fs w
                    end) as ->
    by (destruct (settle (events run)); by simplify_eq).
  destruct (written run) as [data|]; [| by left].
  destruct (fs_write (w_fs w) out data) as [e|m'] eqn:Hw; [by left |].
  destruct (decide (p = out)) as [-> | Hne].
  - right. split; [done |]. exists data. by eapply fs_write_target.
  - left. by eapply fs_write_other.
Qed.

Lemma writes_only_zip_folders (outputDir : path) (folders : list dirent) :
  ∀ files,
  writes_only (λ p, ∃ f, f ∈ folders ∧ p = path_join outputDir (zip_name f))
    (zip_folders E outputDir folders files).
Proof.
  induction folders as [|folder rest IH]; intros files.
  - apply writes_only_none. by intros w w' o [= <- _].
  - simpl. apply writes_only_bind.
    { apply writes_only_none. by intros w w' o [= <- _]. }
    intros _. apply writes_only_bind.
    { eapply writes_only_weaken; [| apply writes_only_zipFolder].
      intros p ->. exists folder. split; [by left | done]. }
    intros _. apply writes_only_bind.
    { apply writes_only_none. intros w w' o.
      unfold calculateSHA512, bind, read_fs, lift, ret.
      destruct (readFileSync _ _); by intros [= <- _]. }
    intros sha. apply writes_only_bind.
    { apply writes_only_none. intros w w' o.
      unfold getFileSize, read_fs, lift. by intros [= <- _]. }
    intros sz. apply writes_only_bind.
    { apply writes_only_none. by intros w w' o [= <- _]. }
    intros _. eapply writes_only_weaken; [| apply IH].
    intros p (f & Hf & ->). exists f. split; [by right | done].
Qed.

(** X8.  For a version that is a plain entry name, everything a run changes
    on disk lies in the output directory [dist/<version>]: the directory
    itself and its parent, made when absent, the zip file of a folder of the
    source root, and [info.json]. Nothing else is created, changed or
    removed; in particular the source tree and [package.json] are as they
    were. *)
Theorem writes_stay_in_the_output_directory (m : fsmap) (p : path) :
  plain_version E m = true →
  let disk := w_fs (main E (init m)).1 in
  (disk !! p = m !! p ∨
   (m !! p = None ∧ disk !! p = Some Dir ∧
    (length p ≤ 2)%nat ∧ head p = Some "dist"%string) ∨
   (∃ version n data,
      (getVersion E (init m)).2 = Ret (VString version) ∧
      plain_name version = true ∧
      p = path_join (path_join outputDist version) n ∧
      disk !! p = Some (File data) ∧
      (n = "info.json"%string ∨
       ∃ d, n = d +:+ ".zip" ∧ m !! path_join filesSrc d = Some Dir))) ∧
  (head p ≠ Some "dist"%string → disk !! p = m !! p).
Proof.
  intros Hplain. cbv zeta.
  cut (w_fs (main E (init m)).1 !! p = m !! p ∨
   (m !! p = None ∧ w_fs (main E (init m)).1 !! p = Some Dir ∧
    (length p ≤ 2)%nat ∧ head p = Some "dist"%string) ∨
   (∃ version n data,
      (getVersion E (init m)).2 = Ret (VString version) ∧
      plain_name version = true ∧
      p = path_join (path_join outputDist version) n ∧
      w_fs (main E (init m)).1 !! p = Some (File data) ∧
      (n = "info.json"%string ∨
       ∃ d, n = d +:+ ".zip" ∧ m !! path_join filesSrc d = Some Dir))).
  { intros H. split; [done |]. intros Hhd.
    destruct H as [? | [(_ & _ & _ & ?) | (v & n & data & _ & _ & -> & _)]];
      done. }
  destruct (main_disk_and_archives E (init m)) as [-> _].
  rewrite package_eq.
  destruct (prepare_output E (init m)) as [w1 o1] eqn:H1.
  pose proof (prepare_output_version E _ _ _ H1) as Hver.
  apply prepare_output_effect in H1 as (_ & _ & _ & Hfs1 & Hret1).
  simpl in Hfs1.
  assert (w_fs w1 !! p = m !! p ∨
    (m !! p = None ∧ w_fs w1 !! p = Some Dir ∧
     (length p ≤ 2)%nat ∧ head p = Some "dist"%string)) as Hprep
    by apply Hfs1.
  assert (∀ n, w_fs w1 !! path_join filesSrc n = m !! path_join filesSrc n)
    as Hsrc.
  { intros n. destruct (Hfs1 (path_join filesSrc n)) as [? | (_ & _ & _ & ?)];
      done. }
  destruct o1 as [[version outputDir]|e|h]; simpl; [| by destruct Hprep; auto..].
  destruct (Hret1 _ _ eq_refl) as (-> & _).
  specialize (Hver _ _ eq_refl).
  assert (plain_name version = true) as Hname.
  { unfold plain_version in Hplain. by rewrite Hver in Hplain. }
  rewrite list_folders_eq.
  destruct (readdirSync (w_fs w1) filesSrc) as [e|items];
    [by destruct Hprep; auto |].
  destruct (folders_of (w_fs w1)) as [|f fs] eqn:Hf;
    [by destruct Hprep; auto |].
  cbv beta iota zeta. rewrite <- Hf.
  match goal with
  | |- context [zip_folders E ?od ?l [] ?w0] =>
      destruct (zip_folders E od l [] w0) as [w3 o3] eqn:H3
  end.
  apply writes_only_zip_folders in H3. specialize (H3 p). simpl in H3.
  assert (w_fs w3 !! p = m !! p ∨
   (m !! p = None ∧ w_fs w3 !! p = Some Dir ∧
    (length p ≤ 2)%nat ∧ head p = Some "dist"%string) ∨
   (∃ version0 n data,
      (getVersion E (init m)).2 = Ret (VString version0) ∧
      plain_name version0 = true ∧
      p = path_join (path_join outputDist version0) n ∧
      w_fs w3 !! p = Some (File data) ∧
      (n = "info.json"%string ∨
       ∃ d, n = d +:+ ".zip" ∧ m !! path_join filesSrc d = Some Dir))) as Hzip.
  { destruct H3 as [Heq | [(fo & Hin & ->) (data & Hdata)]].
    - rewrite Heq. destruct Hprep; auto.
    - right. right. exists version, (zip_name fo), data.
      split_and!; [done.. |]. right. exists (name fo). split; [done |].
      apply elem_of_folders_of in Hin as [Hin _]. by rewrite <- Hsrc. }
  destruct o3 as [files|e|h]; simpl; [| done..].
  rewrite write_info_eq.
  destruct (fs_write (w_fs w3) _ _) as [e|m'] eqn:Hw; simpl; [done |].
  destruct (decide (p = path_join (path_join outputDist version) "info.json"))
    as [-> | Hne].
  - right. right. eexists version, _, _.
    split_and!; [done | done | done | | by left].
    by eapply fs_write_target.
  - by rewrite (fs_write_other _ _ _ p _ Hw Hne).
Qed.

End Writes.

Lemma writes_stay_in_the_output_directory_witness :
  w_fs (main Demo.online (init Demo.disk)).1 !! ["src"; "files"; "README.md"]%string
  = Some (File "hello").
Proof.
  destruct (writes_stay_in_the_output_directory Demo.online Demo.disk
              ["src"; "files"; "README.md"]%string) as [_ H];
    [vm_compute; reflexivity |].
  rewrite H; [reflexivity | discriminate].
Defined.

Section Uploads.
Variable E : env.

Lemma getGitHubInfo_world (w : world) : (getGitHubInfo E w).1 = w.
Proof.
  unfold getGitHubInfo, bind, lift, throw, ret.
  destruct (git_remote_url E) as [e|remoteUrl]; [done |].
  by destruct (match_github E remoteUrl) as [[o r]|].
Qed.

Lemma getGitHubInfo_any_world (w w' : world) :
  (getGitHubInfo E w).2 = (getGitHubInfo E w').2.
Proof.
  unfold getGitHubInfo, bind, lift, throw, ret.
  destruct (git_remote_url E) as [e|remoteUrl]; [done |].
  by destruct (match_github E remoteUrl) as [[o r]|].
Qed.

(** The lookup of the release depends on the world only through the calls
    made so far. *)
Lemma find_or_create_release_net (owner repo version : string) (w w' : world) :
  w_net w = w_net w' →
  (find_or_create_release E owner repo version w).2 =
    (find_or_create_release E owner repo version w').2 ∧
  w_net (find_or_create_release E owner repo version w).1 =
    w_net (find_or_create_release E owner repo version w').1.
Proof.
  intros Hnet.
  pose proof (find_or_create_release_cases E owner repo version w) as H1.
  pose proof (find_or_create_release_cases E owner repo version w') as H2.
  cbv zeta in H1, H2. rewrite <- Hnet in H2.
  destruct (octokit E (w_net w) _) as [e|release].
  - case_decide.
    + destruct H1 as [-> ->], H2 as [-> ->]. done.
    + destruct H1 as [-> ->], H2 as [-> ->]. done.
  - destruct H1 as [-> ->], H2 as [-> ->]. done.
Qed.

(** The upload loop on artifacts whose uploads are accepted. *)
Lemma upload_files_accepted (owner repo : string) (release_id : Z)
    (outputDir : path) (files : list artifact) :
  ∀ w,
  Forall (λ a, w_fs w !! path_join outputDir (url a) ≠ Some Dir ∧
               ∀ history data,
                 ∃ rel, octokit E history
                          (UploadReleaseAsset owner repo release_id (url a) data)
                        = inr rel) files →
  upload_files E owner repo release_id outputDir files w =
  (World (w_fs w)
     (w_log w ++ flat_map (upload_lines (w_fs w) outputDir) files)
     (w_net w ++ omap (upload_of owner repo release_id (w_fs w) outputDir) files)
     (w_zips w), Ret tt).
Proof.
  induction files as [|a rest IH]; intros w Hfiles.
  - simpl. unfold ret. rewrite !app_nil_r. by destruct w.
  - apply Forall_cons in Hfiles as [[Ha Hok] Hrest].
    simpl. unfold bind at 1, file_exists. unfold upload_lines at 1, upload_of at 1.
    unfold existsSync. rewrite fs_lookup_join.
    destruct (w_fs w !! path_join outputDir (url a)) as [[data|]|] eqn:Hl;
      [| done |].
    + unfold bind at 1. unfold bind at 1, log at 1. simpl.
      unfold bind at 1, read_fs, lift, readFileSync. simpl.
      rewrite fs_lookup_join, Hl. unfold bind at 1, call. simpl.
      destruct (Hok (w_net w) data) as [rel ->].
      unfold log at 1. simpl. rewrite IH by done. simpl.
      by rewrite <- !app_assoc.
    + unfold bind at 1, ret at 1. by rewrite IH.
Qed.

Lemma bind_assoc {A B C} (c : M A) (f : A → M B) (g : B → M C) (w : world) :
  bind (bind c f) g w = bind c (λ a, bind (f a) g) w.
Proof. unfold bind. by destruct (c w) as [w1 [a|e|h]]. Qed.

Lemma bind_ext {A B} (c : M A) (f g : A → M B) (w : world) :
  (∀ a w', f a w' = g a w') → bind c f w = bind c g w.
Proof. intros Hfg. unfold bind. destruct (c w) as [w1 [a|e|h]]; auto. Qed.

(** Uploading a list is uploading its front, then its back. *)
Lemma upload_files_app (owner repo : string) (release_id : Z)
    (outputDir : path) (front back : list artifact) (w : world) :
  upload_files E owner repo release_id outputDir (front ++ back) w =
  bind (upload_files E owner repo release_id outputDir front)
       (λ _, upload_files E owner repo release_id outputDir back) w.
Proof.
  revert w. induction front as [|a front IH]; intros w; [done |].
  simpl. rewrite bind_assoc. apply bind_ext. intros present w1.
  rewrite bind_assoc. apply bind_ext. intros [] w2. apply IH.
Qed.

(** X9.  The loop gives up at the first upload the remote refuses: the
    artifacts before it are uploaded, the refused request is the last one
    made, and the error is thrown on to the publisher's [catch]. *)
Theorem upload_stops_at_first_refusal (owner repo : string) (release_id : Z)
    (outputDir : path) (front : list artifact) (a : artifact)
    (back : list artifact) (data : string) (e : error) (w : world) :
  Forall (λ b, w_fs w !! path_join outputDir (url b) ≠ Some Dir ∧
               ∀ history d,
                 ∃ rel, octokit E history
                          (UploadReleaseAsset owner repo release_id (url b) d)
                        = inr rel) front →
  w_fs w !! path_join outputDir (url a) = Some (File data) →
  (∀ history,
     octokit E history (UploadReleaseAsset owner repo release_id (url a) data)
     = inl e) →
  upload_files E owner repo release_id outputDir (front ++ a :: back) w =
  (World (w_fs w)
     (w_log w ++ flat_map (upload_lines (w_fs w) outputDir) front
              ++ [MsgUploading (url a)])
     (w_net w ++ omap (upload_of owner repo release_id (w_fs w) outputDir) front
              ++ [UploadReleaseAsset owner repo release_id (url a) data])
     (w_zips w), Throw e).
Proof.
  intros Hfront Ha Hrefused. rewrite upload_files_app. unfold bind at 1.
  rewrite upload_files_accepted by done. simpl.
  unfold bind at 1, file_exists, existsSync. simpl.
  rewrite fs_lookup_join, Ha.
  unfold bind, log, read_fs, lift, readFileSync, call. simpl.
  rewrite fs_lookup_join, Ha. simpl. rewrite Hrefused.
  by rewrite <- !app_assoc.
Qed.

(** X10.  Every upload of the publisher goes to the release that the lookup
    found or created; without a release nothing is uploaded. *)
Theorem uploads_go_to_the_resolved_release (version : string)
    (files : list artifact) (outputDir : path) (owner repo : string)
    (w : world) :
  token_missing E = false →
  (getGitHubInfo E w).2 = Ret (owner, repo) →
  let lookup := find_or_create_release E owner repo version w in
  ∃ uploads,
    w_net (createGitHubRelease E version files outputDir w).1 =
      w_net lookup.1 ++ uploads ∧
    match lookup.2 with
    | Ret release => Forall (is_upload owner repo (id release)) uploads
    | _ => uploads = []
    end.
Proof.
  intros Htok Hinfo lookup. subst lookup.
  assert (∀ w' (o : outcome unit),
    w_net (try_catch (λ w0, (w', o)) publish_failed w).1 = w_net w') as Hcatch.
  { intros w' o. unfold try_catch. destruct o as [[]|e|h]; [done | | done].
    by rewrite publish_failed_eq. }
  unfold createGitHubRelease. rewrite Htok.
  destruct (publish E version files outputDir w) as [w' o] eqn:Hpub.
  assert (w_net (try_catch (publish E version files outputDir) publish_failed w).1
          = w_net w') as ->.
  { unfold try_catch. rewrite Hpub. destruct o as [[]|e|h]; [done | | done].
    by rewrite publish_failed_eq. }
  clear Hcatch. unfold publish in Hpub. unfold bind at 1 in Hpub.
  pose proof (getGitHubInfo_world w) as Hw.
  destruct (getGitHubInfo E w) as [w0 o0]. simpl in Hinfo, Hw. subst o0 w0.
  unfold bind at 1 in Hpub. simpl in Hpub. unfold bind at 1 in Hpub.
  match type of Hpub with
  | context [find_or_create_release E owner repo version ?wa] =>
      destruct (find_or_create_release_net owner repo version wa w eq_refl)
        as [Hout Hnet];
      destruct (find_or_create_release E owner repo version wa) as [w1 o1]
  end.
  simpl in Hout, Hnet. rewrite <- Hout, <- Hnet.
  destruct o1 as [release|e|h].
  - match type of Hpub with
    | bind ?c ?f w1 = _ =>
        assert (confined (is_upload owner repo (id release)) (bind c f))
          as Hrest
    end.
    { apply confined_bind; [apply confined_log |]. intros _.
      apply confined_bind; [apply confined_upload_files |]. intros _.
      apply confined_bind; [apply confined_upload_info |]. intros _.
      apply confined_log. }
    destruct (Hrest _ _ _ Hpub) as (_ & _ & _ & uploads & Hnet2 & Hup).
    by exists uploads.
  - simplify_eq. exists []. by rewrite app_nil_r.
  - simplify_eq. exists []. by rewrite app_nil_r.
Qed.

End Uploads.

Section Accepted.
Variable E : env.

(** X11.  A run whose packaging succeeded and whose requests the remote
    accepts uploads, after the lookup of the release, the zip file of every
    manifest entry, in manifest order, with the very bytes whose hash and
    length the manifest records, and then the manifest as written to disk. *)
Theorem accepted_run_uploads_the_recorded_bytes (m : fsmap)
    (version : string) (files : list artifact) (outputDir : path)
    (owner repo : string) (release : release) :
  (package E (init m)).2 = Ret (version, files, outputDir) →
  token_missing E = false →
  (getGitHubInfo E (init m)).2 = Ret (owner, repo) →
  (find_or_create_release E owner repo version (init m)).2 = Ret release →
  (∀ history n d,
     ∃ rel, octokit E history (UploadReleaseAsset owner repo (id release) n d)
            = inr rel) →
  let disk := w_fs (package E (init m)).1 in
  let r := main E (init m) in
  r.2 = Ret tt ∧
  w_net r.1 =
    w_net (find_or_create_release E owner repo version (init m)).1
    ++ omap (upload_of owner repo (id release) disk outputDir) files
    ++ [UploadReleaseAsset owner repo (id release) "info.json"
          (JSON_stringify E (Info version files (now E)))] ∧
  Forall (λ a, ∃ data,
            upload_of owner repo (id release) disk outputDir a =
              Some (UploadReleaseAsset owner repo (id release) (url a) data) ∧
            sha512 a = sha512_base64 E data ∧
            size a = Z.of_nat (String.length data)) files ∧
  last (w_log r.1) = Some (MsgReleaseDone (html_url release)).
Proof.
  intros Hpack Htok Hinfo Hlookup Hacc disk r. subst disk r.
  rewrite main_eq. destruct (package E (init m)) as [w o] eqn:Hp.
  simpl in Hpack. subst o. simpl.
  apply package_disk in Hp as (_ & Hmanifest & Hok & _ & _ & Hnet).
  simpl in Hnet.
  assert (Forall (λ a, ∃ data,
            upload_of owner repo (id release) (w_fs w) outputDir a =
              Some (UploadReleaseAsset owner repo (id release) (url a) data) ∧
            sha512 a = sha512_base64 E data ∧
            size a = Z.of_nat (String.length data)) files) as Hrec.
  { eapply Forall_impl; [exact Hok |]. intros a (data & Hd & Hs & Hz).
    exists data. unfold upload_of. by rewrite Hd. }
  assert (getGitHubInfo E w = (w, Ret (owner, repo))) as Hgit.
  { pose proof (getGitHubInfo_world E w).
    pose proof (getGitHubInfo_any_world E w (init m)) as Hany.
    rewrite Hinfo in Hany. by destruct (getGitHubInfo E w); simplify_eq/=. }
  set (wa := World (w_fs w) (w_log w ++ [MsgRepo owner repo]) (w_net w) (w_zips w)).
  destruct (find_or_create_release_net E owner repo version wa (init m) Hnet)
    as [Hout Hcalls].
  destruct (find_or_create_release E owner repo version wa) as [w1 o1] eqn:Hf.
  pose proof (confined_find_or_create_release _ _ _ _ _ _ _ Hf)
    as (Hfs1 & Hz1 & _).
  simpl in Hout, Hcalls, Hfs1, Hz1. rewrite Hlookup in Hout. subst o1.
  assert (∃ l, createGitHubRelease E version files outputDir w =
    (World (w_fs w) (l ++ [MsgReleaseDone (html_url release)])
       (w_net (find_or_create_release E owner repo version (init m)).1
        ++ omap (upload_of owner repo (id release) (w_fs w) outputDir) files
        ++ [UploadReleaseAsset owner repo (id release) "info.json"
              (JSON_stringify E (Info version files (now E)))])
       (w_zips w), Ret tt)) as [l ->].
  { exists (w_log w1 ++ [MsgUploadStart]
            ++ flat_map (upload_lines (w_fs w) outputDir) files
            ++ [MsgUploading "info.json"; MsgUploaded "info.json"]).
    unfold createGitHubRelease, try_catch. rewrite Htok.
    unfold publish. unfold bind at 1. rewrite Hgit.
    unfold bind at 1. simpl. fold wa. unfold bind at 1. rewrite Hf.
    unfold bind at 1. simpl. unfold bind at 1.
    rewrite upload_files_accepted; simpl.
    2:{ rewrite Hfs1. eapply Forall_impl; [exact Hok |].
        intros a (data & Hd & _). split; [by rewrite Hd |].
        intros history d. apply Hacc. }
    unfold bind at 1. unfold upload_info. unfold bind at 1, file_exists, existsSync.
    simpl. rewrite Hfs1, fs_lookup_join, Hmanifest.
    unfold bind, log, read_fs, lift, readFileSync, call. simpl.
    rewrite ?Hfs1, ?fs_lookup_join, ?Hmanifest. simpl.
    match goal with
    | |- context [octokit E ?h ?c] => destruct (Hacc h "info.json"%string
        (JSON_stringify E (Info version files (now E)))) as [rel ->]
    end.
    simpl. rewrite Hz1, Hcalls. rewrite <- !app_assoc. simpl.
    by rewrite <- ?app_assoc. }
  simpl. split_and!; [done | done | done | apply last_snoc].
Qed.

End Accepted.

Lemma upload_stops_at_first_refusal_witness :
  let r := main flaky (init Demo.disk) in
  w_net r.1 =
    [GetReleaseByTag "acme" "tool" "v1.2.0";
     UploadReleaseAsset "acme" "tool" 7 "core.zip" "zip of core";
     UploadReleaseAsset "acme" "tool" 7 "plugin-a.zip" "zip of plugin-a"] ∧
  (upload_files flaky "acme" "tool" 7 Demo.out_dir
     ([Artifact "core.zip" "sha:zip of core" 11]
      ++ Artifact "plugin-a.zip" "sha:zip of plugin-a" 15
      :: [Artifact "docs.zip" "sha" 3])
     (package flaky (init Demo.disk)).1).2 =
  Throw (Error_ "Validation Failed" (Some 422)).
Proof.
  split; [vm_compute; reflexivity |].
  rewrite (upload_stops_at_first_refusal flaky "acme" "tool" 7 Demo.out_dir
             _ _ _ "zip of plugin-a" (Error_ "Validation Failed" (Some 422))).
  - reflexivity.
  - repeat constructor; [vm_compute; discriminate | intros; by eexists].
  - vm_compute. reflexivity.
  - reflexivity.
Defined.

Lemma uploads_go_to_the_resolved_release_witness :
  ∃ uploads,
    w_net (createGitHubRelease Demo.fresh "1.2.0" Demo.packaged Demo.out_dir
             (package Demo.fresh (init Demo.disk)).1).1 =
    [GetReleaseByTag "acme" "tool" "v1.2.0";
     CreateRelease "acme" "tool" "v1.2.0" "1.2.0" "Release version 1.2.0"
       true false] ++ uploads ∧
    Forall (is_upload "acme" "tool" 8) uploads.
Proof.
  destruct (uploads_go_to_the_resolved_release Demo.fresh "1.2.0"
              Demo.packaged Demo.out_dir "acme" "tool"
              (package Demo.fresh (init Demo.disk)).1)
    as (uploads & Hnet & Hall).
  - reflexivity.
  - vm_compute. reflexivity.
  - exists uploads. split.
    + rewrite Hnet. f_equal.
    + exact Hall.
Defined.

Lemma accepted_run_uploads_the_recorded_bytes_witness :
  w_net (main Demo.fresh (init Demo.disk)).1 =
  [GetReleaseByTag "acme" "tool" "v1.2.0";
   CreateRelease "acme" "tool" "v1.2.0" "1.2.0" "Release version 1.2.0" true false;
   UploadReleaseAsset "acme" "tool" 8 "core.zip" "zip of core";
   UploadReleaseAsset "acme" "tool" 8 "plugin-a.zip" "zip of plugin-a";
   UploadReleaseAsset "acme" "tool" 8 "info.json" "1.2.0"].
Proof.
  destruct (accepted_run_uploads_the_recorded_bytes Demo.fresh Demo.disk
              "1.2.0" Demo.packaged Demo.out_dir "acme" "tool"
              (Release 8 "https://example/r/8")) as (_ & Hnet & _).
  - vm_compute. reflexivity.
  - reflexivity.
  - vm_compute. reflexivity.
  - vm_compute. reflexivity.
  - intros. by eexists.
  - rewrite Hnet. vm_compute. reflexivity.
Defined.

Lemma strip_prefix_app (p s : string) : strip_prefix p (p +:+ s) = Some s.
Proof.
  induction p as [|a p IH]; [done |].
  rewrite string_app_cons. simpl. by rewrite Ascii.eqb_refl.
Qed.

Lemma strip_prefix_Some (p s r : string) :
  strip_prefix p s = Some r → s = p +:+ r.
Proof.
  revert s. induction p as [|a p IH]; intros s H; simpl in H.
  - by injection H as ->.
  - destruct s as [|b s]; [done |].
    destruct (Ascii.eqb a b) eqn:Hab; [| done].
    apply Ascii.eqb_eq in Hab as ->. rewrite string_app_cons.
    f_equal. by apply IH.
Qed.

Lemma no_slash_app (a b : string) :
  no_slash (a +:+ b) = no_slash a && no_slash b.
Proof.
  induction a as [|c a IH]; [done |].
  rewrite string_app_cons. simpl. rewrite IH. by destruct (Ascii.eqb c "/").
Qed.

Lemma until_slash_Some (s a b : string) :
  until_slash s = Some (a, b) →
  s = a +:+ String "/" b ∧ no_slash a = true.
Proof.
  revert a. induction s as [|c s IH]; intros a H; simpl in H; [done |].
  destruct (Ascii.eqb c "/") eqn:Hc.
  - apply Ascii.eqb_eq in Hc as ->. by injection H as <- <-.
  - destruct (until_slash s) as [[a' b']|]; [| done].
    injection H as <- <-. destruct (IH a' eq_refl) as [-> Ha'].
    rewrite string_app_cons. simpl. by rewrite Hc.
Qed.

Lemma until_slash_app (a b : string) :
  no_slash a = true → until_slash (a +:+ String "/" b) = Some (a, b).
Proof.
  induction a as [|c a IH]; intros Ha; [done |].
  rewrite string_app_cons. simpl in *.
  destruct (Ascii.eqb c "/"); [done |]. by rewrite IH.
Qed.

Lemma substring_0_app (a b : string) :
  String.substring 0 (String.length a) (a +:+ b) = a.
Proof.
  induction a as [|c a IH]; [by destruct b |].
  rewrite string_app_cons. simpl. by rewrite IH.
Qed.

Lemma substring_app_r (a b : string) (n : nat) :
  String.substring (String.length a) n (a +:+ b) = String.substring 0 n b.
Proof. induction a as [|c a IH]; [done |]. by rewrite string_app_cons. Qed.

Lemma substring_all (s : string) :
  String.substring 0 (String.length s) s = s.
Proof. induction s as [|c s IH]; [done |]. simpl. by rewrite IH. Qed.

Lemma substring_split (s : string) (n : nat) :
  (n ≤ String.length s)%nat →
  s = String.substring 0 n s +:+ String.substring n (String.length s - n) s.
Proof.
  revert n. induction s as [|c s IH]; intros n Hn.
  - simpl in Hn. by replace n with 0%nat by lia.
  - destruct n as [|n].
    + rewrite Nat.sub_0_r, substring_all. by destruct s.
    + simpl in Hn. simpl. rewrite string_app_cons. f_equal. apply IH. lia.
Qed.

Lemma substring_0_length (s : string) (n : nat) :
  (n ≤ String.length s)%nat → String.length (String.substring 0 n s) = n.
Proof.
  revert n. induction s as [|c s IH]; intros [|n] Hn; simpl in *;
    [done | lia | done |]. rewrite IH; lia.
Qed.

Lemma lazy_repo_Some (rest repo : string) :
  lazy_repo rest = Some repo →
  repo ≠ ""%string ∧ no_slash repo = true ∧
  (rest = repo ∨ rest = repo +:+ ".git").
Proof.
  unfold lazy_repo. destruct (no_slash rest) eqn:Hns; [| done].
  intros H.
  assert (rest ≠ ""%string) as Hne by (by intros ->).
  assert ((if ends_with_git rest && Nat.ltb 4 (String.length rest)
           then Some (String.substring 0 (String.length rest - 4) rest)
           else Some rest) = Some repo) as H' by (by destruct rest).
  clear H.
  destruct (ends_with_git rest && Nat.ltb 4 (String.length rest)) eqn:Hg;
    injection H' as <-.
  - apply andb_true_iff in Hg as [Hend Hlen].
    apply Nat.ltb_lt in Hlen. unfold ends_with_git in Hend.
    apply String.eqb_eq in Hend.
    pose proof (substring_split rest (String.length rest - 4) ltac:(lia))
      as Hsplit.
    replace (String.length rest - (String.length rest - 4))%nat
      with 4%nat in Hsplit by lia.
    rewrite Hend in Hsplit.
    pose proof (substring_0_length rest (String.length rest - 4) ltac:(lia))
      as Hl.
    split_and!.
    + intros Hrepo. rewrite Hrepo in Hl. simpl in Hl. lia.
    + rewrite Hsplit, no_slash_app in Hns.
      by apply andb_true_iff in Hns as [? _].
    + by right.
  - by split_and!; [| | left].
Qed.

Lemma lazy_repo_git (repo : string) :
  repo ≠ ""%string → no_slash repo = true →
  lazy_repo (repo +:+ ".git") = Some repo.
Proof.
  intros Hne Hns. unfold lazy_repo. rewrite no_slash_app, Hns. simpl.
  assert (∀ X : option string,
    match repo +:+ ".git" with EmptyString => None | String _ _ => X end = X)
    as -> by (intros X; by destruct repo).
  assert (Nat.ltb 4 (String.length repo + 4) = true) as Hlen.
  { apply Nat.ltb_lt. destruct repo; [by destruct Hne | simpl; lia]. }
  unfold ends_with_git. rewrite string_app_length.
  change (String.length ".git") with 4%nat. rewrite Hlen.
  replace (String.length repo + 4 - 4)%nat with (String.length repo) by lia.
  by rewrite substring_app_r, substring_0_app.
Qed.

Lemma lazy_repo_plain (repo : string) :
  repo ≠ ""%string → no_slash repo = true → ends_with_git repo = false →
  lazy_repo repo = Some repo.
Proof.
  intros Hne Hns Hg. unfold lazy_repo. rewrite Hns, Hg.
  by destruct repo.
Qed.

Lemma string_app_nil_r (s : string) : s +:+ "" = s.
Proof.
  induction s as [|c s IH]; [done |]. rewrite string_app_cons. by rewrite IH.
Qed.

Lemma match_at_Some (s owner repo : string) :
  match_at s = Some (owner, repo) →
  owner ≠ ""%string ∧ repo ≠ ""%string ∧
  no_slash owner = true ∧ no_slash repo = true ∧
  ∃ sep tail,
    s = "github.com" +:+ String sep (owner +:+ String "/" (repo +:+ tail)) ∧
    (sep = ":" ∨ sep = "/")%char ∧ (tail = "" ∨ tail = ".git")%string.
Proof.
  unfold match_at. intros H.
  destruct (strip_prefix "github.com" s) as [[|sep rest]|] eqn:Hp; [done | | done].
  apply strip_prefix_Some in Hp as ->.
  destruct (Ascii.eqb sep ":" || Ascii.eqb sep "/") eqn:Hsep; [| done].
  destruct (until_slash rest) as [[[|c o] rest']|] eqn:Hu; [done | | done].
  apply until_slash_Some in Hu as [-> Ho].
  destruct (lazy_repo rest') as [r|] eqn:Hr; [| done].
  injection H as <- <-.
  apply lazy_repo_Some in Hr as (Hne & Hns & Hrest).
  split_and!; [done.. |].
  assert ((sep = ":" ∨ sep = "/")%char) as Hsep'.
  { apply orb_true_iff in Hsep as [Hs | Hs]; apply Ascii.eqb_eq in Hs; auto. }
  destruct Hrest as [-> | ->].
  - exists sep, ""%string. split_and!; [| done | by left].
    by rewrite string_app_nil_r.
  - exists sep, ".git"%string. by split_and!; [| | right].
Qed.

(** X12.  The pattern is sound: what it returns is an owner and a repository
    name, both non-empty and free of slashes, that stand at the end of the URL
    behind [github.com:] or [github.com/], a final [.git] apart. *)
Theorem github_match_sound (s owner repo : string) :
  github_match s = Some (owner, repo) →
  owner ≠ ""%string ∧ repo ≠ ""%string ∧
  no_slash owner = true ∧ no_slash repo = true ∧
  ∃ pre sep tail,
    s = pre +:+ "github.com"
            +:+ String sep (owner +:+ String "/" (repo +:+ tail)) ∧
    (sep = ":" ∨ sep = "/")%char ∧ (tail = "" ∨ tail = ".git")%string.
Proof.
  induction s as [|c s IH]; [done |].
  change (github_match (String c s)) with
    (match match_at (String c s) with
     | Some r => Some r
     | None => github_match s
     end).
  destruct (match_at (String c s)) as [[o r]|] eqn:Hm.
  - intros [= <- <-]. apply match_at_Some in Hm
      as (? & ? & ? & ? & sep & tail & -> & ? & ?).
    split_and!; [done.. |]. by exists ""%string, sep, tail.
  - intros H. destruct (IH H) as (? & ? & ? & ? & pre & sep & tail & -> & ? & ?).
    split_and!; [done.. |]. by exists (String c pre), sep, tail.
Qed.

Lemma match_at_form (sep : ascii) (owner rest : string) :
  (sep = ":" ∨ sep = "/")%char →
  owner ≠ ""%string → no_slash owner = true →
  match_at ("github.com" +:+ String sep (owner +:+ String "/" rest)) =
  match lazy_repo rest with
  | Some repo => Some (owner, repo)
  | None => None
  end.
Proof.
  intros Hsep Hne Hns. unfold match_at. rewrite strip_prefix_app.
  assert (Ascii.eqb sep ":" || Ascii.eqb sep "/" = true) as ->
    by (by destruct Hsep as [-> | ->]).
  rewrite until_slash_app by done. by destruct owner.
Qed.

Lemma github_match_here (s : string) (r : string * string) :
  match_at s = Some r → github_match s = Some r.
Proof.
  intros H. destruct s as [|c s]; [done |].
  change (github_match (String c s)) with
    (match match_at (String c s) with
     | Some r => Some r
     | None => github_match s
     end).
  by rewrite H.
Qed.

(** The two usual shapes of a remote, with or without the final [.git]:
    the pattern returns the owner and the repository name. *)
Lemma github_match_usual_remotes (owner repo : string) :
  owner ≠ ""%string → repo ≠ ""%string →
  no_slash owner = true → no_slash repo = true →
  github_match ("git@github.com:" +:+ owner +:+ "/" +:+ repo +:+ ".git")
    = Some (owner, repo) ∧
  github_match ("https://github.com/" +:+ owner +:+ "/" +:+ repo +:+ ".git")
    = Some (owner, repo) ∧
  (ends_with_git repo = false →
   github_match ("git@github.com:" +:+ owner +:+ "/" +:+ repo)
     = Some (owner, repo) ∧
   github_match ("https://github.com/" +:+ owner +:+ "/" +:+ repo)
     = Some (owner, repo)).
Proof.
  intros Ho Hr Hso Hsr.
  assert (∀ sep rest,
    (sep = ":" ∨ sep = "/")%char → lazy_repo rest = Some repo →
    github_match ("github.com" +:+ String sep (owner +:+ String "/" rest))
      = Some (owner, repo)) as Hform.
  { intros sep rest Hsep Hrest. apply github_match_here.
    by rewrite match_at_form, Hrest. }
  assert (∀ s, github_match ("git@" +:+ s) = github_match s) as Hssh
    by reflexivity.
  assert (∀ s, github_match ("https://" +:+ s) = github_match s) as Hhttps
    by reflexivity.
  split_and!.
  - change ("git@github.com:" +:+ owner +:+ "/" +:+ repo +:+ ".git") with
      ("git@" +:+ "github.com" +:+ String ":" (owner +:+ String "/" (repo +:+ ".git"))).
    rewrite Hssh. apply Hform; [by left | by apply lazy_repo_git].
  - change ("https://github.com/" +:+ owner +:+ "/" +:+ repo +:+ ".git") with
      ("https://" +:+ "github.com" +:+ String "/" (owner +:+ String "/" (repo +:+ ".git"))).
    rewrite Hhttps. apply Hform; [by right | by apply lazy_repo_git].
  - intros Hg. split.
    + change ("git@github.com:" +:+ owner +:+ "/" +:+ repo) with
        ("git@" +:+ "github.com" +:+ String ":" (owner +:+ String "/" repo)).
      rewrite Hssh. apply Hform; [by left | by apply lazy_repo_plain].
    + change ("https://github.com/" +:+ owner +:+ "/" +:+ repo) with
        ("https://" +:+ "github.com" +:+ String "/" (owner +:+ String "/" repo)).
      rewrite Hhttps. apply Hform; [by right | by apply lazy_repo_plain].
Qed.

Lemma prefix_same (a : ascii) (p s : string) :
  String.prefix (String a p) (String a s) = String.prefix p s.
Proof. simpl. by destruct (ascii_dec a a). Qed.

Lemma prefix_other (a c : ascii) (p s : string) :
  a ≠ c → String.prefix (String a p) (String c s) = false.
Proof. intros Hne. simpl. by destruct (ascii_dec a c). Qed.

Lemma prefix_dot_git_app (a b : string) :
  a ≠ ""%string →
  String.prefix ".git" (a +:+ ".git" +:+ b) = String.prefix ".git" a.
Proof.
  intros Ha. destruct a as [|c1 a]; [done |]. rewrite string_app_cons.
  destruct (ascii_dec "." c1) as [<- | ?]; [| by rewrite !prefix_other].
  rewrite !prefix_same. destruct a as [|c2 a]; [done |].
  rewrite string_app_cons.
  destruct (ascii_dec "g" c2) as [<- | ?]; [| by rewrite !prefix_other].
  rewrite !prefix_same. destruct a as [|c3 a]; [done |].
  rewrite string_app_cons.
  destruct (ascii_dec "i" c3) as [<- | ?]; [| by rewrite !prefix_other].
  rewrite !prefix_same. destruct a as [|c4 a]; [done |].
  rewrite string_app_cons.
  destruct (ascii_dec "t" c4) as [<- | ?]; [| by rewrite !prefix_other].
  rewrite !prefix_same. destruct a; [done |]. by rewrite string_app_cons.
Qed.

Lemma prefix_nil (s : string) : String.prefix "" s = true.
Proof. by destruct s. Qed.

Lemma remove_dot_git_cons (c : ascii) (s : string) :
  remove_dot_git (String c s) =
  if String.prefix ".git" (String c s)
  then String.substring 4 (String.length (String c s) - 4) (String c s)
  else String c (remove_dot_git s).
Proof. reflexivity. Qed.

Lemma remove_dot_git_id (s : string) :
  occurs_dot_git s = false → remove_dot_git s = s.
Proof.
  induction s as [|c s IH]; [done |]. intros Ho.
  change (occurs_dot_git (String c s)) with
    (String.prefix ".git" (String c s) || occurs_dot_git s) in Ho.
  apply orb_false_iff in Ho as [Hp Ho].
  by rewrite remove_dot_git_cons, Hp, IH.
Qed.

(** X13.  [replace('.git', '')] takes out the first [.git] wherever it stands
    in the name, and leaves a name without [.git] as it is. *)
Theorem replace_removes_first_dot_git (a b : string) :
  occurs_dot_git a = false →
  remove_dot_git a = a ∧ remove_dot_git (a +:+ ".git" +:+ b) = a +:+ b.
Proof.
  induction a as [|c a IH]; intros Ha.
  - split; [done |]. rewrite string_app_nil.
    change (".git" +:+ b) with (String "." (String "g" (String "i" (String "t" b)))).
    rewrite remove_dot_git_cons, !prefix_same, prefix_nil.
    simpl. rewrite Nat.sub_0_r. apply substring_all.
  - change (occurs_dot_git (String c a)) with
      (String.prefix ".git" (String c a) || occurs_dot_git a) in Ha.
    apply orb_false_iff in Ha as [Hp Ho]. destruct (IH Ho) as [IH1 IH2].
    split.
    + by rewrite remove_dot_git_cons, Hp, IH1.
    + pose proof (prefix_dot_git_app (String c a) b ltac:(done)) as Hpre.
      rewrite Hp in Hpre. rewrite string_app_cons in Hpre |- *.
      by rewrite remove_dot_git_cons, Hpre, IH2.
Qed.

Lemma replace_removes_first_dot_git_witness :
  remove_dot_git "my" = "my"%string ∧
  remove_dot_git ("my" +:+ ".git" +:+ "hub.io") = ("my" +:+ "hub.io")%string.
Proof. apply (replace_removes_first_dot_git "my" "hub.io"). reflexivity. Defined.

(** X14.  With the pattern matched as [github_match] does, a remote of one of
    the usual shapes gives [getGitHubInfo] the owner and the repository name
    (the name after [replace]). *)
Theorem usual_remote_is_resolved (E : env) (w : world)
    (owner repo remoteUrl : string) :
  (∀ s, match_github E s = github_match s) →
  git_remote_url E = inr remoteUrl →
  owner ≠ ""%string → repo ≠ ""%string →
  no_slash owner = true → no_slash repo = true →
  (remoteUrl = "git@github.com:" +:+ owner +:+ "/" +:+ repo +:+ ".git" ∨
   remoteUrl = "https://github.com/" +:+ owner +:+ "/" +:+ repo +:+ ".git" ∨
   (ends_with_git repo = false ∧
    (remoteUrl = "git@github.com:" +:+ owner +:+ "/" +:+ repo ∨
     remoteUrl = "https://github.com/" +:+ owner +:+ "/" +:+ repo))) →
  getGitHubInfo E w = (w, Ret (owner, remove_dot_git repo)) ∧
  (occurs_dot_git repo = false →
   getGitHubInfo E w = (w, Ret (owner, repo))).
Proof.
  intros Hm Hgit Ho Hr Hso Hsr Hurl.
  destruct (github_match_usual_remotes owner repo Ho Hr Hso Hsr)
    as (Hssh & Hhttps & Hplain).
  assert (github_match remoteUrl = Some (owner, repo)) as Hmatch.
  { destruct Hurl as [-> | [-> | [Hg [-> | ->]]]]; [done | done | |];
      by destruct (Hplain Hg). }
  assert (getGitHubInfo E w = (w, Ret (owner, remove_dot_git repo))) as Hinfo.
  { unfold getGitHubInfo, bind, lift. rewrite Hgit, Hm, Hmatch. done. }
  split; [done |]. intros Hocc. rewrite Hinfo.
  by rewrite remove_dot_git_id.
Qed.

Lemma usual_remote_is_resolved_witness :
  getGitHubInfo cloned (init Demo.disk) =
  (init Demo.disk, Ret ("acme", "tool")%string).
Proof.
  destruct (usual_remote_is_resolved cloned (init Demo.disk) "acme" "tool"
              "git@github.com:acme/tool.git") as [_ H];
    [done | done | done | done | done | done | by left |].
  by apply H.
Defined.

Lemma github_match_sound_witness :
  ∃ pre sep tail,
    ("git@github.com:acme/tool.git" =
       pre +:+ "github.com" +:+ String sep ("acme" +:+ String "/" ("tool" +:+ tail)))%string
    ∧ (sep = ":" ∨ sep = "/")%char ∧ (tail = "" ∨ tail = ".git")%string.
Proof.
  destruct (github_match_sound "git@github.com:acme/tool.git" "acme" "tool")
    as (_ & _ & _ & _ & H); [reflexivity | exact H].
Defined.


Section Disk.
Variable E : env.


(** X16.  For a version that is a plain entry name: when the source root
    cannot be listed (it is missing, or is a regular file), the run ends
    with status 1 on the error of [readdirSync], the output directory
    [dist/<version>] on disk, nothing archived.  A source root that cannot
    be listed when the run starts cannot be listed either once the output
    directory is made, and with the same error. *)
Theorem unlistable_source_root_is_fatal (m : fsmap) (version : string)
    (outputDir : path) (e : error) :
  (prepare_output E (init m)).2 = Ret (version, outputDir) →
  plain_name version = true →
  let prepared := (prepare_output E (init m)).1 in
  existsSync (w_fs prepared) outputDir = true ∧
  (readdirSync (w_fs prepared) filesSrc = inl e →
   main E (init m) =
     (World (w_fs prepared) (w_log prepared ++ [ErrFailed (message e)]) [] [],
      Halt (ExitCode 1))) ∧
  (readdirSync m filesSrc = inl e →
   readdirSync (w_fs prepared) filesSrc = inl e).
Proof.
  intros Hprep _ prepared. subst prepared. rewrite main_eq, package_eq.
  destruct (prepare_output E (init m)) as [w1 o1] eqn:H1. simpl in Hprep.
  subst o1. apply prepare_output_effect in H1 as (Hnet & Hz & _ & Hfs & Hret).
  simpl in Hnet, Hz, Hfs. destruct (Hret _ _ eq_refl) as (_ & Hex & _).
  simpl. split_and!; [done | |].
  - intros Hrd. by rewrite list_folders_eq, Hrd, Hnet, Hz.
  - intros Hrd.
    assert (fs_lookup (w_fs w1) filesSrc = fs_lookup m filesSrc) as Hroot.
    { unfold fs_lookup, filesSrc.
      destruct (Hfs ["src"; "files"]%string) as [Heq | (_ & _ & _ & Hhd)];
        [done | done]. }
    unfold readdirSync in *. rewrite Hroot.
    destruct (fs_lookup m filesSrc) as [[?|]|]; by simplify_eq.
Qed.

End Disk.


Lemma unlistable_source_root_is_fatal_witness :
  (main Demo.base (init no_source)).2 = Halt (ExitCode 1) ∧
  last (w_log (main Demo.base (init no_source)).1) = Some (ErrFailed "ENOENT") ∧
  existsSync (w_fs (main Demo.base (init no_source)).1) Demo.out_dir = true.
Proof.
  destruct (unlistable_source_root_is_fatal Demo.base no_source "1.2.0"
              Demo.out_dir (fs_error "ENOENT")) as (Hex & Hmain & Hrd).
  - vm_compute. reflexivity.
  - reflexivity.
  - rewrite Hmain.
    + split_and!; [done | apply last_snoc | exact Hex].
    + apply Hrd. vm_compute. reflexivity.
Defined.
